(** * Charity_Advisor: the recommendation backend, embedded and verified

    A shallow embedding of [backend/app.py] and [backend/catalog.py].

    Modelling conventions.
    - A Python [str] is a [string]; the text helpers ([strip], [upper],
      [lower], [isalpha]) follow Python on ASCII text.
    - [Optional[str]] is [option string]; Python truthiness of such a value
      ([x or y], [if x]) is [truthy]: present and not the empty string.
    - A charity dict ([Dict[str, Optional[str]]] with the seven keys the code
      builds) is the record [Charity]; [d.get(k)] is the field projection.
    - A dict whose iteration order matters is an association list in insertion
      order; [_EVERY_CACHE], [indices] and [seen_ids] are [gmap]/[gset].
    - The outside world (SQLite's [RANDOM()], the Every.org service, the
      environment variable, the random generator) enters through the
      variables of the sections below; the calls made are logged in [World].
    - Taken as given: the database file exists ([get_connection] returns),
      an Every.org answer that parses is a JSON object with an object under
      ["data"], and the values of its [nonprofit] object are strings or
      null. *)

From stdpp Require Import base option list gmap strings sets.
From Stdlib Require Import ZArith Ascii String Lia.

Local Open Scope string_scope.
Local Open Scope Z_scope.

(** * Python text primitives (ASCII) *)

Module PyStr.

(** [str.isspace] on one ASCII character: TAB..CR, FS..US and the space. *)
Definition is_space (c : ascii) : bool :=
  let n := nat_of_ascii c in
  ((9 <=? n) && (n <=? 13) || (28 <=? n) && (n <=? 32))%nat.

Definition is_upper_char (c : ascii) : bool :=
  let n := nat_of_ascii c in ((65 <=? n) && (n <=? 90))%nat.

Definition is_lower_char (c : ascii) : bool :=
  let n := nat_of_ascii c in ((97 <=? n) && (n <=? 122))%nat.

Definition upper_char (c : ascii) : ascii :=
  if is_lower_char c then ascii_of_nat (nat_of_ascii c - 32) else c.

Definition lower_char (c : ascii) : ascii :=
  if is_upper_char c then ascii_of_nat (nat_of_ascii c + 32) else c.

Fixpoint smap (f : ascii -> ascii) (s : string) : string :=
  match s with
  | EmptyString => EmptyString
  | String c s' => String (f c) (smap f s')
  end.

Definition upper : string -> string := smap upper_char.
Definition lower : string -> string := smap lower_char.

Fixpoint lstrip (s : string) : string :=
  match s with
  | EmptyString => EmptyString
  | String c s' => if is_space c then lstrip s' else s
  end.

Fixpoint rstrip (s : string) : string :=
  match s with
  | EmptyString => EmptyString
  | String c s' =>
      match rstrip s' with
      | EmptyString => if is_space c then EmptyString else String c EmptyString
      | r => String c r
      end
  end.

Definition strip (s : string) : string := rstrip (lstrip s).

Fixpoint all_chars (p : ascii -> bool) (s : string) : bool :=
  match s with
  | EmptyString => true
  | String c s' => p c && all_chars p s'
  end.

(** [str.isalpha]: at least one character and all of them letters. *)
Definition isalpha (s : string) : bool :=
  match s with
  | EmptyString => false
  | _ => all_chars (fun c => is_upper_char c || is_lower_char c) s
  end.

(** [len(s)] *)
Definition len (s : string) : Z := Z.of_nat (String.length s).

(** Python truthiness of an [Optional[str]]. *)
Definition truthy (o : option string) : bool :=
  match o with
  | Some s => negb (String.eqb s "")
  | None => false
  end.

(** [a or b] on [Optional[str]] operands. *)
Definition por (a b : option string) : option string :=
  if truthy a then a else b.

End PyStr.

(** * Python's [dict] as an insertion-ordered association list *)

Module PyDict.
Section Dict.
Context {V : Type}.

Definition dict := list (string * V).

(** [d.get(k)] *)
Fixpoint get (d : dict) (k : string) : option V :=
  match d with
  | [] => None
  | (k', v) :: d' => if String.eqb k' k then Some v else get d' k
  end.

Definition keys (d : dict) : list string := d.*1.

(** [d[k] = f(d[k])] when [k] is a key, [d[k] = v0] appended otherwise. *)
Fixpoint upsert (f : V -> V) (v0 : V) (k : string) (d : dict) : dict :=
  match d with
  | [] => [(k, v0)]
  | (k', v) :: d' =>
      if String.eqb k' k then (k', f v) :: d' else (k', v) :: upsert f v0 k d'
  end.
End Dict.
Arguments dict : clear implicits.
End PyDict.

(** * backend/app.py: constants *)

Definition MAX_CHARITIES : Z := 15.

(** [GENERIC_TO_NTEE], in the order of the source. *)
Definition GENERIC_TO_NTEE : PyDict.dict (list string) :=
  [ ("A0", ["A50"; "A51"; "A52"; "A54"; "A56"; "A57"; "A80"]);
    ("A1", ["A60"; "A61"; "A62"; "A63"; "A65"; "A68"; "A69"; "A6A"; "A6B"; "A6C"; "A6E"]);
    ("A2", ["A30"; "A31"; "A32"; "A33"; "A34"]);
    ("A3", ["A20"; "A23"; "A25"; "A40"; "A70"; "A84"; "A99"]);
    ("A4", ["A01"; "A02"; "A03"; "A05"; "A11"; "A12"; "A19"; "A26"; "A90"]);
    ("B0", ["B20"; "B21"; "B24"; "B25"; "B28"]);
    ("B1", ["B30"; "B40"; "B41"; "B42"; "B43"; "B50"; "B60"]);
    ("B2", ["B70"; "B80"; "B82"; "B83"; "B84"]);
    ("B3", ["B90"; "B92"; "B94"; "B99"]);
    ("B4", ["B01"; "B02"; "B03"; "B05"; "B11"; "B12"; "B19"]);
    ("X0", ["X20"; "X21"; "X22"; "X30"; "X40"; "X50"; "X70"]);
    ("X1", ["X80"; "X81"; "X82"; "X83"; "X84"]);
    ("X2", ["X90"; "X99"]);
    ("X3", ["X01"; "X02"; "X03"; "X05"; "X11"; "X12"]);
    ("E0", ["E20"; "E21"; "E22"; "E24"]);
    ("E1", ["E30"; "E31"; "E32"; "E40"; "E42"]);
    ("E2", ["E90"; "E91"; "E92"]);
    ("E3", ["E50"; "E60"; "E61"; "E62"; "E65"; "E70"; "E80"; "E86"; "E99"]);
    ("E4", ["E01"; "E02"; "E03"; "E05"; "E11"; "E12"; "E19"]);
    ("F0", ["F20"; "F21"; "F22"; "F50"; "F52"; "F53"; "F54"]);
    ("F1", ["F30"; "F31"; "F32"; "F33"; "F70"; "F80"; "F99"]);
    ("F2", ["F40"; "F42"; "F60"]);
    ("F3", ["F01"; "F02"; "F03"; "F05"; "F11"; "F12"; "F19"]);
    ("G0", ["G40"; "G41"; "G42"; "G43"; "G44"; "G45"; "G48"; "G50"; "G51"; "G54"; "G60"; "G61"; "G70"]);
    ("G1", ["G20"; "G25"; "G30"; "G80"; "G81"; "G83"; "G84"]);
    ("G2", ["G90"; "G92"; "G94"; "G96"; "G98"; "G9B"; "G99"]);
    ("G3", ["G11"; "G12"; "G19"]);
    ("G4", ["G01"; "G02"; "G03"; "G05"]);
    ("H0", ["H20"; "H25"; "H30"; "H80"; "H81"; "H83"; "H84"]);
    ("H1", ["H40"; "H41"; "H42"; "H43"; "H44"; "H45"; "H48"; "H50"; "H51"; "H54"; "H60"; "H61"; "H70"]);
    ("H2", ["H90"; "H92"; "H94"; "H96"; "H98"; "H9B"; "H99"]);
    ("H3", ["H01"; "H02"; "H03"; "H05"; "H11"; "H12"; "H19"]);
    ("C0", ["C20"; "C27"; "C35"]);
    ("C1", ["C30"; "C32"; "C34"; "C36"]);
    ("C2", ["C40"; "C41"; "C42"; "C50"; "C60"; "C99"]);
    ("C3", ["C01"; "C02"; "C03"; "C05"; "C11"; "C12"; "C19"]);
    ("D0", ["D20"; "D40"; "D60"; "D61"]);
    ("D1", ["D30"; "D31"; "D32"; "D33"; "D34"]);
    ("D2", ["D50"; "D99"]);
    ("D3", ["D01"; "D02"; "D03"; "D05"; "D11"; "D12"; "D19"]);
    ("I0", ["I20"; "I21"; "I23"; "I70"; "I71"; "I72"; "I73"]);
    ("I1", ["I30"; "I31"; "I40"; "I43"; "I44"]);
    ("I2", ["I50"; "I51"; "I60"]);
    ("I3", ["I80"; "I83"; "I99"]);
    ("I4", ["I01"; "I02"; "I03"; "I05"; "I11"; "I12"; "I19"]);
    ("J0", ["J20"; "J21"; "J22"; "J99"]);
    ("J1", ["J30"; "J32"; "J33"]);
    ("J2", ["J03"; "J40"]);
    ("J3", ["J01"; "J02"; "J05"; "J11"; "J12"; "J19"]);
    ("K0", ["K30"; "K31"; "K34"; "K35"; "K36"]);
    ("K1", ["K20"; "K25"; "K26"; "K28"]);
    ("K2", ["K40"; "K50"; "K99"]);
    ("K3", ["K01"; "K02"; "K03"; "K05"; "K11"; "K12"; "K19"]);
    ("L0", ["L20"; "L21"; "L22"; "L25"]);
    ("L1", ["L40"; "L41"]);
    ("L2", ["L30"; "L50"; "L80"; "L81"; "L82"; "L99"]);
    ("L3", ["L01"; "L02"; "L03"; "L05"; "L11"; "L12"; "L19"]);
    ("M0", ["M20"; "M23"; "M24"; "M99"]);
    ("M1", ["M40"; "M41"; "M42"]);
    ("M2", ["M01"; "M02"; "M03"; "M05"; "M11"; "M12"; "M19"]);
    ("N0", ["N20"; "N30"; "N31"; "N32"]);
    ("N1", ["N50"; "N60"; "N61"; "N62"; "N63"; "N64"; "N65"; "N66"; "N67"; "N68"; "N69"; "N6A"]);
    ("N2", ["N70"; "N71"; "N72"]);
    ("N3", ["N01"; "N02"; "N03"; "N05"; "N11"; "N12"; "N19"]);
    ("O0", ["O20"; "O21"; "O22"; "O23"]);
    ("O1", ["O30"; "O31"; "O40"; "O41"; "O42"; "O43"]);
    ("O2", ["O50"; "O51"; "O52"; "O53"; "O54"; "O55"; "O99"]);
    ("O3", ["O01"; "O02"; "O03"; "O05"; "O11"; "O12"; "O19"]);
    ("P0", ["P30"; "P31"; "P32"; "P33"; "P40"; "P42"; "P43"; "P44"; "P45"; "P46"]);
    ("P1", ["P80"; "P81"; "P82"; "P84"; "P85"; "P86"; "P87"]);
    ("P2", ["P58"; "P60"; "P61"; "P62"]);
    ("P3", ["P70"; "P72"; "P73"; "P74"; "P75"]);
    ("P4", ["P20"; "P21"; "P22"; "P24"; "P26"; "P27"; "P28"; "P29"; "P50"; "P51"; "P52"; "P99"]);
    ("P5", ["P01"; "P02"; "P03"; "P05"; "P11"; "P12"; "P19"]);
    ("Q0", ["Q30"; "Q31"; "Q32"; "Q33"; "Q70"; "Q71"]);
    ("Q1", ["Q20"; "Q21"; "Q22"; "Q23"]);
    ("Q2", ["Q40"; "Q41"; "Q42"; "Q43"; "Q99"]);
    ("Q3", ["Q01"; "Q02"; "Q03"; "Q05"; "Q11"; "Q12"; "Q19"]);
    ("R0", ["R20"; "R22"; "R23"; "R24"; "R25"; "R26"; "R30"]);
    ("R1", ["R40"; "R60"; "R61"; "R62"; "R63"; "R67"; "R99"]);
    ("R2", ["R01"; "R02"; "R03"; "R05"; "R11"; "R12"; "R19"]);
    ("S0", ["S20"; "S21"; "S22"]);
    ("S1", ["S30"; "S31"; "S32"]);
    ("S2", ["S40"; "S41"; "S43"; "S46"; "S47"; "S50"; "S80"; "S81"; "S82"; "S99"]);
    ("S3", ["S01"; "S02"; "S03"; "S05"; "S11"; "S12"; "S19"]);
    ("T0", ["T20"; "T21"; "T22"; "T23"; "T90"]);
    ("T1", ["T30"; "T31"; "T70"]);
    ("T2", ["T40"; "T50"; "T99"]);
    ("T3", ["T01"; "T02"; "T03"; "T05"; "T11"; "T12"; "T19"]);
    ("U0", ["U30"; "U31"; "U33"; "U34"; "U36"]);
    ("U1", ["U40"; "U41"; "U42"]);
    ("U2", ["U20"; "U21"; "U50"; "U99"]);
    ("U3", ["U01"; "U02"; "U03"; "U05"; "U11"; "U12"; "U19"]);
    ("V0", ["V20"; "V21"; "V22"; "V23"; "V24"; "V25"; "V26"]);
    ("V1", ["V30"; "V31"; "V32"; "V33"; "V34"; "V35"; "V36"; "V37"; "V99"]);
    ("V2", ["V01"; "V02"; "V03"; "V05"; "V11"; "V12"; "V19"]);
    ("W0", ["W30"; "W40"; "W50"; "W60"; "W99"]);
    ("W1", ["W70"; "W71"; "W72"; "W73"]);
    ("W2", ["W01"; "W02"; "W03"; "W05"; "W11"; "W12"; "W19"]);
    ("Y0", ["Y30"; "Y33"; "Y34"; "Y40"]);
    ("Y1", ["Y20"; "Y22"; "Y99"]);
    ("Y2", ["Y50"; "Y60"; "Y70"]);
    ("Y3", ["Y01"; "Y02"; "Y03"; "Y05"; "Y11"; "Y12"; "Y19"]) ].

(** * backend/app.py: [normalize_state] *)

Definition normalize_state (location : string) : string :=
  let loc := PyStr.strip location in
  if String.eqb loc "" then "any"
  else if String.eqb (PyStr.lower loc) "any" then "any"
  else if (PyStr.len loc =? 2) && PyStr.isalpha loc then PyStr.upper loc
  else "any".

(** * Data model *)

(** [catalog.CharityRow]; a column of the store may hold NULL. *)
Module CharityRow.
Record t : Type := Build {
  ein : option string;
  name : option string;
  city : option string;
  state : option string;
  ntee_code : option string;
  ntee_major : option string
}.
End CharityRow.

(** The normalized charity dict built by [group_charities_by_decile] and
    [get_daily_featured_pool]. *)
Module Charity.
Record t : Type := Build {
  name : option string;
  ein : option string;
  profileUrl : option string;
  websiteUrl : option string;
  nteeCode : option string;
  location : option string;
  description : option string
}.

Global Instance eq_dec : EqDecision t.
Proof. solve_decision. Defined.
End Charity.

(** The [nonprofit] object of an Every.org answer: a JSON object read with
    [detail.get(key)]; its values are strings or null. *)
Abbreviation Detail := (gmap string (option string)).

(** [detail.get(key)] *)
Definition detail_get (d : Detail) (key : string) : option string :=
  mjoin (d !! key).

(** What [requests.get] followed by [resp.json()] can yield. *)
Inductive JsonBody :=
  | Malformed                                (* [resp.json()] raises ValueError *)
  | Payload (nonprofit : option Detail).     (* [payload["data"]["nonprofit"]]:
                                                [None] when missing or not a dict *)

Inductive HttpOutcome :=
  | RequestException                         (* transport failure or timeout *)
  | Response (status_code : Z) (body : JsonBody).

(** The statement [_execute_query] runs:
    [SELECT ... FROM charities WHERE ntee_code IN (deciles) [AND state = ?]
     ORDER BY RANDOM() LIMIT ?]. *)
Record SqlQuery := {
  q_deciles : list string;
  q_state : option string;
  q_limit : Z
}.

Inductive Exn :=
  | HTTPException (status_code : Z) (detail : string).

Inductive Result (A : Type) :=
  | Ok (a : A)
  | Raise (e : Exn).
Arguments Ok {A} a.
Arguments Raise {A} e.

(** The mutable state of the process and the trace of its external calls. *)
Record World := {
  every_cache : gmap string (option Detail);   (* [_EVERY_CACHE] *)
  http_log : list string;                      (* EINs requested from Every.org *)
  sql_log : list SqlQuery                      (* statements run on the catalog *)
}.

Definition initial_world : World :=
  {| every_cache := ∅; http_log := []; sql_log := [] |}.

(** Computations over [World] that may raise. *)
Definition M (A : Type) : Type := World -> Result A * World.

Definition ret {A} (a : A) : M A := fun w => (Ok a, w).

Definition bind {A B} (m : M A) (k : A -> M B) : M B :=
  fun w =>
    match m w with
    | (Ok a, w') => k a w'
    | (Raise e, w') => (Raise e, w')
    end.

Definition raise {A} (e : Exn) : M A := fun w => (Raise e, w).

Notation "'let*' x ':=' m 'in' k" := (bind m (fun x => k))
  (at level 10, x pattern, m at level 100, k at level 200).

(** [for x in xs: x = f(x)], left to right. *)
Fixpoint for_each {A B} (f : A -> M B) (xs : list A) : M (list B) :=
  match xs with
  | [] => ret []
  | x :: xs' =>
      let* y := f x in
      let* ys := for_each f xs' in
      ret (y :: ys)
  end.

(** * Python's [random.Random(seed).shuffle] *)

Section Shuffle.
Context {A : Type}.

(** [py_random seed n i]: the raw draw behind [randbelow(i + 1)] in the
    shuffle of an [n]-element list by a generator seeded with [seed]. *)
Variable py_random : Z -> nat -> nat -> nat.

Definition randbelow (seed : Z) (n i : nat) : nat :=
  (py_random seed n i mod S i)%nat.

(** [x[i], x[j] = x[j], x[i]] *)
Definition swap (x : list A) (i j : nat) : list A :=
  match x !! i, x !! j with
  | Some a, Some b => <[j := a]> (<[i := b]> x)
  | _, _ => x
  end.

(** [for i in reversed(range(1, len(x))): j = randbelow(i + 1); swap] *)
Fixpoint shuffle_from (seed : Z) (n i : nat) (x : list A) : list A :=
  match i with
  | O => x
  | S i' => shuffle_from seed n i' (swap x i (randbelow seed n i))
  end.

Definition shuffle (seed : Z) (x : list A) : list A :=
  shuffle_from seed (List.length x) (List.length x - 1) x.
End Shuffle.

(** * backend/catalog.py *)

(** [ORDER BY RANDOM()]: SQLite draws one key per candidate row and sorts the
    rows on it. *)
Fixpoint insert_by_key {A} (k : Z) (a : A) (l : list (Z * A)) : list (Z * A) :=
  match l with
  | [] => [(k, a)]
  | (k', a') :: l' =>
      if k <=? k' then (k, a) :: l else (k', a') :: insert_by_key k a l'
  end.

Definition sort_by_key {A} (l : list (Z * A)) : list (Z * A) :=
  foldr (fun p acc => insert_by_key p.1 p.2 acc) [] l.

(** [LIMIT ?]: a negative bound means no bound. *)
Definition sql_limit {A} (limit : Z) (rows : list A) : list A :=
  if limit <? 0 then rows else take (Z.to_nat limit) rows.

Definition _normalize_deciles (deciles : list string) : list string :=
  map (fun d => PyStr.upper (PyStr.strip d))
      (filter (fun d => PyStr.strip d ≠ "") deciles).

Definition _normalize_state (state : option string) : option string :=
  match state with
  | None => None
  | Some s =>
      if String.eqb s "" then None
      else
        let s := PyStr.upper (PyStr.strip s) in
        if String.eqb s "" || String.eqb s "ANY" then None else Some s
  end.

Definition _rows_to_charities (rows : list CharityRow.t) : list CharityRow.t :=
  map (fun row =>
         CharityRow.Build (CharityRow.ein row) (CharityRow.name row)
           (CharityRow.city row) (CharityRow.state row)
           (CharityRow.ntee_code row) (CharityRow.ntee_major row))
      rows.

Section Catalog.
(** The rows of table [charities] in [data/charities.db] (opened read-only,
    assumed present). *)
Variable table : list CharityRow.t.

(** [sql_random n i]: the value of [RANDOM()] for the [i]-th candidate row
    of the [n]-th statement the process runs. *)
Variable sql_random : nat -> nat -> Z.

(** Python's generator, see [Shuffle]. *)
Variable py_random : Z -> nat -> nat -> nat.

Definition where_clause (q : SqlQuery) (row : CharityRow.t) : bool :=
  match CharityRow.ntee_code row with
  | Some c => bool_decide (c ∈ q_deciles q)
  | None => false
  end
  && match q_state q with
     | Some s => bool_decide (CharityRow.state row = Some s)
     | None => true
     end.

Definition order_by_random (n : nat) (rows : list CharityRow.t)
  : list CharityRow.t :=
  (sort_by_key (imap (fun i row => (sql_random n i, row)) rows)).*2.

Definition run_query (n : nat) (q : SqlQuery) : list CharityRow.t :=
  sql_limit (q_limit q)
    (order_by_random n (List.filter (where_clause q) table)).

(** [cursor = conn.execute(query, params); return cursor.fetchall()] *)
Definition _execute_query (q : SqlQuery) : M (list CharityRow.t) :=
  fun w =>
    (Ok (run_query (List.length (sql_log w)) q),
     {| every_cache := every_cache w;
        http_log := http_log w;
        sql_log := (sql_log w ++ [q])%list |}).

Definition fetch_by_deciles (deciles : list string) (state : option string)
    (limit : Z) : M (list CharityRow.t) :=
  let cleaned_deciles := _normalize_deciles deciles in
  match cleaned_deciles with
  | [] => ret []
  | _ =>
      let unfiltered :=
        let* rows :=
          _execute_query
            {| q_deciles := cleaned_deciles; q_state := None; q_limit := limit |} in
        ret (_rows_to_charities rows) in
      match _normalize_state state with
      | Some normalized_state =>
          let* rows :=
            _execute_query
              {| q_deciles := cleaned_deciles;
                 q_state := Some normalized_state;
                 q_limit := limit |} in
          match rows with
          | _ :: _ => ret (_rows_to_charities rows)
          | [] => unfiltered
          end
      | None => unfiltered
      end
  end.

Definition fetch_random_pool_for_deciles (deciles : list string)
    (state : option string) (pool_size : Z) (seed : option Z)
  : M (list CharityRow.t) :=
  if pool_size <=? 0 then ret []
  else
    let large_limit := Z.max (pool_size * 3) pool_size in
    let* results := fetch_by_deciles deciles state large_limit in
    let results :=
      match seed with
      | Some s => shuffle py_random s results
      | None => results
      end in
    ret (take (Z.to_nat pool_size) results).

End Catalog.

(** The statement [fetch_by_major] runs:
    [SELECT ... FROM charities WHERE ntee_major = ? [AND state = ?]
     ORDER BY RANDOM() LIMIT ?]. *)
Record MajorQuery := {
  mq_major : string;
  mq_state : option string;
  mq_limit : Z
}.

Section CatalogMajor.
Variable table : list CharityRow.t.
Variable sql_random : nat -> nat -> Z.

Definition where_major (q : MajorQuery) (row : CharityRow.t) : bool :=
  bool_decide (CharityRow.ntee_major row = Some (mq_major q))
  && match mq_state q with
     | Some s => bool_decide (CharityRow.state row = Some s)
     | None => true
     end.

Definition run_major_query (n : nat) (q : MajorQuery) : list CharityRow.t :=
  sql_limit (mq_limit q)
    (order_by_random sql_random n (List.filter (where_major q) table)).

(** [fetch_by_major], entered when the process has run [n] statements; the
    result comes with the statements it ran, in order. *)
Definition fetch_by_major (major_letter : string) (state : option string)
    (limit : Z) (n : nat) : list CharityRow.t * list MajorQuery :=
  if String.eqb major_letter "" then ([], [])
  else
    let major_letter := PyStr.upper (PyStr.strip major_letter) in
    if String.eqb major_letter "" then ([], [])
    else
      let unfiltered :=
        {| mq_major := major_letter; mq_state := None; mq_limit := limit |} in
      match _normalize_state state with
      | Some normalized_state =>
          let filtered :=
            {| mq_major := major_letter; mq_state := Some normalized_state;
               mq_limit := limit |} in
          match run_major_query n filtered with
          | (_ :: _) as rows => (_rows_to_charities rows, [filtered])
          | [] =>
              (_rows_to_charities (run_major_query (S n) unfiltered),
               [filtered; unfiltered])
          end
      | None =>
          (_rows_to_charities (run_major_query n unfiltered), [unfiltered])
      end.

End CatalogMajor.

(** * backend/app.py: grouping and fair selection *)

(** [f"{x}"] for an [Optional[str]]. *)
Definition py_format (o : option string) : string := default "None" o.

(** The [location_str] computed from a catalog row. *)
Definition location_str (row : CharityRow.t) : option string :=
  let city := default "" (PyStr.por (CharityRow.city row) (Some "")) in
  let state := default "" (PyStr.por (CharityRow.state row) (Some "")) in
  if negb (String.eqb city "") && negb (String.eqb state "")
  then Some (city ++ ", " ++ state)
  else if negb (String.eqb state "") then Some state
  else None.

(** [row.get("ntee_code") or row.get("nteeCode")]: a [CharityRow] has no key
    ["nteeCode"]. *)
Definition row_decile (row : CharityRow.t) : option string :=
  PyStr.por (CharityRow.ntee_code row) None.

(** The dict literal [normalized] built from a row and its decile. *)
Definition normalized (row : CharityRow.t) (decile : string) : Charity.t :=
  {| Charity.name := PyStr.por (CharityRow.name row) (Some "Unknown");
     Charity.ein := CharityRow.ein row;
     Charity.profileUrl := None;
     Charity.websiteUrl := None;
     Charity.nteeCode := Some decile;
     Charity.location := location_str row;
     Charity.description := None |}.

Definition group_step (grouped : PyDict.dict (list Charity.t))
    (row : CharityRow.t) : PyDict.dict (list Charity.t) :=
  match row_decile row with
  | Some decile =>
      if String.eqb decile "" then grouped
      else
        PyDict.upsert (fun l => (l ++ [normalized row decile])%list)
          [normalized row decile] decile grouped
  | None => grouped
  end.

Definition group_charities_by_decile (rows : list CharityRow.t)
  : PyDict.dict (list Charity.t) :=
  fold_left group_step rows [].

(** [charity.get("ein") or charity.get("profileUrl") or f"{name}-{code}"] *)
Definition unique_id (code : string) (charity : Charity.t) : string :=
  if PyStr.truthy (Charity.ein charity) then default "" (Charity.ein charity)
  else if PyStr.truthy (Charity.profileUrl charity)
       then default "" (Charity.profileUrl charity)
       else py_format (Charity.name charity) ++ "-" ++ code.

(** The local variables of [round_robin_select]. *)
Record Selection := {
  selected : list Charity.t;
  seen_ids : gset string;
  indices : gmap string nat
}.

(** The inner [while idx < len(charities)] loop, entered with [rest] the
    candidates from position [idx] on: the first candidate whose identity is
    new, with the position after it. *)
Fixpoint scan (code : string) (seen : gset string) (rest : list Charity.t)
    (idx : nat) : option (Charity.t * string * nat) :=
  match rest with
  | [] => None
  | charity :: rest' =>
      let unique_id := unique_id code charity in
      let idx := S idx in
      if String.eqb unique_id "" || bool_decide (unique_id ∈ seen)
      then scan code seen rest' idx
      else Some (charity, unique_id, idx)
  end.

(** One turn of [for code in codes]: the body up to the limit test. *)
Definition take_turn (charities_by_code : PyDict.dict (list Charity.t))
    (code : string) (st : Selection) (progressed : bool) : Selection * bool :=
  let charities := default [] (PyDict.get charities_by_code code) in
  let idx := default 0%nat (indices st !! code) in
  match scan code (seen_ids st) (drop idx charities) idx with
  | Some (charity, unique_id, idx') =>
      ({| selected := (selected st ++ [charity])%list;
          seen_ids := {[unique_id]} ∪ seen_ids st;
          indices := <[code := idx']> (indices st) |}, true)
  | None => (st, progressed)
  end.

(** [for code in codes: ...; if len(selected) >= limit: break] *)
Fixpoint for_codes (charities_by_code : PyDict.dict (list Charity.t))
    (limit : Z) (codes : list string) (st : Selection) (progressed : bool)
  : Selection * bool :=
  match codes with
  | [] => (st, progressed)
  | code :: codes' =>
      let '(st', progressed') := take_turn charities_by_code code st progressed in
      if Z.of_nat (List.length (selected st')) >=? limit then (st', progressed')
      else for_codes charities_by_code limit codes' st' progressed'
  end.

(** [while len(selected) < limit], at most [fuel] rounds; [None] when the
    rounds are used up before the loop exits. *)
Fixpoint rounds (charities_by_code : PyDict.dict (list Charity.t))
    (limit : Z) (codes : list string) (fuel : nat) (st : Selection)
  : option Selection :=
  if Z.of_nat (List.length (selected st)) <? limit then
    match fuel with
    | O => None
    | S fuel' =>
        let '(st', progressed) := for_codes charities_by_code limit codes st false in
        if progressed then rounds charities_by_code limit codes fuel' st'
        else Some st'
    end
  else Some st.

Definition working_codes (charities_by_code : PyDict.dict (list Charity.t))
  : list string :=
  (List.filter (fun p => match p.2 with [] => false | _ => true end)
     charities_by_code).*1.

Definition initial_selection (codes : list string) : Selection :=
  {| selected := [];
     seen_ids := ∅;
     indices := list_to_map (map (fun code => (code, 0%nat)) codes) |}.

Definition round_robin_run (fuel : nat)
    (charities_by_code : PyDict.dict (list Charity.t)) (limit : Z)
  : option (list Charity.t) :=
  let codes := working_codes charities_by_code in
  match codes with
  | [] => Some []
  | _ =>
      selected <$>
        rounds charities_by_code limit codes fuel (initial_selection codes)
  end.

(** [round_robin_select]: every round but the last appends an entry, so
    [limit] rounds let the loop run to its own exit (see
    [round_robin_run_enough]). *)
Definition round_robin_select
    (charities_by_code : PyDict.dict (list Charity.t)) (limit : Z)
  : list Charity.t :=
  default [] (round_robin_run (Z.to_nat limit) charities_by_code limit).

(** * backend/app.py: enrichment and the two operations *)

(** The merge performed by the body of [enrich_charities_with_every] once a
    non-empty [detail] is at hand. *)
Definition merge_detail (detail : Detail) (charity : Charity.t) : Charity.t :=
  let profile_url :=
    PyStr.por (detail_get detail "profileUrl")
      (PyStr.por (detail_get detail "profile") (detail_get detail "url")) in
  let website_url :=
    PyStr.por (detail_get detail "websiteUrl") (detail_get detail "website") in
  let description :=
    PyStr.por (detail_get detail "description") (detail_get detail "mission") in
  let location :=
    PyStr.por (detail_get detail "location")
      (PyStr.por (detail_get detail "locationName") (Charity.location charity)) in
  let ntee_code :=
    PyStr.por (detail_get detail "nteeCode") (Charity.nteeCode charity) in
  {| Charity.name := Charity.name charity;
     Charity.ein := Charity.ein charity;
     Charity.profileUrl :=
       if PyStr.truthy profile_url then profile_url else Charity.profileUrl charity;
     Charity.websiteUrl :=
       if PyStr.truthy website_url then website_url else Charity.websiteUrl charity;
     Charity.nteeCode :=
       if PyStr.truthy ntee_code then ntee_code else Charity.nteeCode charity;
     Charity.location :=
       if PyStr.truthy location then location else Charity.location charity;
     Charity.description :=
       if PyStr.truthy description then description else Charity.description charity |}.

(** [_EVERY_CACHE[ein] = value] *)
Definition cache_store (ein : string) (value : option Detail) : M unit :=
  fun w =>
    (Ok tt,
     {| every_cache := <[ein := value]> (every_cache w);
        http_log := http_log w;
        sql_log := sql_log w |}).

(** [_EVERY_CACHE.get(ein)]: [None] for a missing key and for a stored [None]. *)
Definition cache_get (ein : string) : M (option Detail) :=
  fun w => (Ok (mjoin (every_cache w !! ein)), w).

(** [datetime.date] *)
Record Date := { year : Z; month : Z; day : Z }.

(** [int(today.strftime("%Y%m%d"))] *)
Definition date_seed (today : Date) : Z :=
  year today * 10000 + month today * 100 + day today.

Record CharityResponse := {
  generic_code : string;
  location : string;
  ntee_codes : list string;
  charities : list Charity.t
}.

Record Featured := {
  date : Date;
  count : Z;
  featured_charities : list Charity.t
}.

Section App.
Variable table : list CharityRow.t.
Variable sql_random : nat -> nat -> Z.
Variable py_random : Z -> nat -> nat -> nat.

(** [http_get n ein]: what the [n]-th request of the process, for [ein],
    comes back with. *)
Variable http_get : nat -> string -> HttpOutcome.

(** [os.getenv("EVERY_API_KEY")] *)
Variable EVERY_API_KEY : option string.

Definition get_api_key : M string :=
  if PyStr.truthy EVERY_API_KEY then ret (default "" EVERY_API_KEY)
  else raise (HTTPException 500 "EVERY_API_KEY is not configured.").

(** [requests.get(url, params=params, timeout=10)] with [resp.json()] *)
Definition requests_get (ein : string) : M HttpOutcome :=
  fun w =>
    (Ok (http_get (List.length (http_log w)) ein),
     {| every_cache := every_cache w;
        http_log := (http_log w ++ [ein])%list;
        sql_log := sql_log w |}).

Definition fetch_every_nonprofit_detail (ein : string) : M (option Detail) :=
  if String.eqb ein "" then ret None
  else
    let* cached := cache_get ein in
    match cached with
    | Some d => ret (Some d)
    | None =>
        let negative := let* _ := cache_store ein None in ret None in
        let* api_key := get_api_key in
        let* resp := requests_get ein in
        match resp with
        | RequestException => negative
        | Response status_code body =>
            if status_code >=? 400 then negative
            else
              match body with
              | Malformed => negative
              | Payload None => negative
              | Payload (Some nonprofit) =>
                  if decide (nonprofit = ∅) then negative
                  else
                    let* _ := cache_store ein (Some nonprofit) in
                    ret (Some nonprofit)
              end
        end
    end.

(** The body of the loop of [enrich_charities_with_every] for one dict;
    the result is the dict after its in-place update. *)
Definition enrich_charity (charity : Charity.t) : M Charity.t :=
  let ein := Charity.ein charity in
  if negb (PyStr.truthy ein) then ret charity
  else
    let* detail := fetch_every_nonprofit_detail (default "" ein) in
    match detail with
    | None => ret charity
    | Some detail =>
        if decide (detail = ∅) then ret charity
        else ret (merge_detail detail charity)
    end.

(** The dicts of the list are distinct objects, each built by [normalized]
    for one row, so the in-place loop is an element-wise update. *)
Definition enrich_charities_with_every (charities : list Charity.t)
  : M (list Charity.t) :=
  for_each enrich_charity charities.

Definition sample_generic_codes : list string :=
  ["D0"; "B0"; "E0"; "P0"; "C0"; "N0"].

(** [list(dict.fromkeys(xs))]: first occurrences, in order. *)
Fixpoint fromkeys (xs : list string) (seen : list string) : list string :=
  match xs with
  | [] => []
  | x :: xs' =>
      if bool_decide (x ∈ seen) then fromkeys xs' seen
      else x :: fromkeys xs' (x :: seen)
  end.

Definition normalize_rows (rows : list CharityRow.t) : list Charity.t :=
  flat_map
    (fun row =>
       match row_decile row with
       | Some decile =>
           if String.eqb decile "" then [] else [normalized row decile]
       | None => []
       end)
    rows.

Definition get_daily_featured_pool (pool_size : Z) : M (list Charity.t) :=
  let decile_candidates :=
    flat_map (fun code => default [] (PyDict.get GENERIC_TO_NTEE code))
      sample_generic_codes in
  let deciles := fromkeys decile_candidates [] in
  match deciles with
  | [] => ret []
  | _ =>
      let* rows :=
        fetch_random_pool_for_deciles table sql_random py_random
          deciles None pool_size None in
      ret (normalize_rows rows)
  end.

Definition recommend_charities (payload_generic_code payload_location : string)
  : M CharityResponse :=
  let generic_code := PyStr.upper (PyStr.strip payload_generic_code) in
  let location := PyStr.strip payload_location in
  if String.eqb generic_code "" then
    raise (HTTPException 400 "generic_code is required.")
  else
    match PyDict.get GENERIC_TO_NTEE generic_code with
    | None | Some [] =>
        raise (HTTPException 400 ("Unknown generic code: " ++ generic_code))
    | Some target_deciles =>
        let state_code := normalize_state location in
        let pool_size := MAX_CHARITIES * 4 in
        let seed := None in
        let* pool :=
          fetch_random_pool_for_deciles table sql_random py_random
            target_deciles
            (if String.eqb state_code "any" then None else Some state_code)
            pool_size seed in
        match pool with
        | [] =>
            raise (HTTPException 404
              "No charities found in the database for these NTEE codes and location.")
        | _ =>
            let charities_by_decile := group_charities_by_decile pool in
            let selected := round_robin_select charities_by_decile MAX_CHARITIES in
            match selected with
            | [] =>
                raise (HTTPException 404
                  "No charities could be selected after grouping.")
            | _ =>
                let* selected := enrich_charities_with_every selected in
                ret {| generic_code := generic_code;
                       location := location;
                       ntee_codes := target_deciles;
                       charities := selected |}
            end
        end
    end.

Definition get_featured_charities (today : Date) : M Featured :=
  let seed := date_seed today in
  let* pool := get_daily_featured_pool 200 in
  match pool with
  | [] => ret {| date := today; count := 0; featured_charities := [] |}
  | _ =>
      let* pool := enrich_charities_with_every pool in
      let with_website :=
        List.filter (fun charity => PyStr.truthy (Charity.websiteUrl charity)) pool in
      let with_website := shuffle py_random seed with_website in
      let featured := take 6 with_website in
      ret {| date := today;
             count := Z.of_nat (List.length featured);
             featured_charities := featured |}
  end.

End App.

(** * Vocabulary of the properties *)

(** The first non-empty value [detail] holds under one of [keys], if any. *)
Fixpoint supplied (detail : Detail) (keys : list string) : option string :=
  match keys with
  | [] => None
  | key :: keys' =>
      if PyStr.truthy (detail_get detail key) then detail_get detail key
      else supplied detail keys'
  end.

(** A field after the merge: the supplied non-empty value, else the old one. *)
Definition field_updated (sup old new : option string) : Prop :=
  match sup with
  | Some v => v ≠ "" /\ new = Some v
  | None => new = old
  end.

(** The outcomes the code resolves to "no detail": transport failure, status
    400 and above, a body that is not JSON, a missing or empty [nonprofit]. *)
Definition negative_outcome (o : HttpOutcome) : bool :=
  match o with
  | RequestException => true
  | Response status_code body =>
      (status_code >=? 400)
      || match body with
         | Malformed => true
         | Payload None => true
         | Payload (Some nonprofit) => bool_decide (nonprofit = ∅)
         end
  end.

(** The detail an outcome resolves to. *)
Definition resolved_detail (o : HttpOutcome) : option Detail :=
  match o with
  | Response status_code (Payload (Some nonprofit)) =>
      if negative_outcome o then None else Some nonprofit
  | _ => None
  end.

(** [cursor st code]: [indices.get(code, 0)]. *)
Definition cursor (st : Selection) (code : string) : nat :=
  default 0%nat (indices st !! code).

(** [id] is the dedup identity under which [charity] is a candidate of
    [pools]: the identity computed in the category that lists it. *)
Definition candidate_identity (pools : PyDict.dict (list Charity.t))
    (id : string) (charity : Charity.t) : Prop :=
  exists code l,
    PyDict.get pools code = Some l /\ charity ∈ l /\ id = unique_id code charity.

(** The dedup identity read off an entry alone: computed with the category
    code the entry carries, which is its category in the pools built by
    [group_charities_by_decile]. *)
Definition entry_identity (charity : Charity.t) : string :=
  unique_id (default "" (Charity.nteeCode charity)) charity.

(** The dedup identities of all candidates of [pools]. *)
Definition dedup_identities (pools : PyDict.dict (list Charity.t)) : gset string :=
  list_to_set (flat_map (fun p => map (unique_id p.1) p.2) pools).

(** The loop invariant of [round_robin_select]; [ids] lists the identities of
    the selected entries, in order. *)
Record selection_inv (pools : PyDict.dict (list Charity.t))
    (ids : list string) (st : Selection) : Prop := {
  inv_nodup : NoDup ids;
  inv_selected : Forall2 (candidate_identity pools) ids (selected st);
  inv_seen : seen_ids st = list_to_set ids;
  inv_cursor : forall code l, PyDict.get pools code = Some l ->
               forall c, c ∈ take (cursor st code) l ->
                         unique_id code c ∈ seen_ids st
}.

(** Every candidate of the categories [codes] has its identity in [seen_ids]. *)
Definition exhausted (pools : PyDict.dict (list Charity.t))
    (codes : list string) (st : Selection) : Prop :=
  forall code l, code ∈ codes -> PyDict.get pools code = Some l ->
  forall c, c ∈ l -> unique_id code c ∈ seen_ids st.

(** [charity]'s category code is one of [codes]. *)
Definition category_in (codes : list string) (charity : Charity.t) : Prop :=
  exists code, code ∈ codes /\ Charity.nteeCode charity = Some code.

(** Details once cached stay cached from [w] to [w']. *)
Definition cache_mono (w w' : World) : Prop :=
  forall ein d, every_cache w !! ein = Some (Some d) ->
                every_cache w' !! ein = Some (Some d).

(** [after] is [before] itself, or [before] merged with the detail the cache
    of [w] holds for its EIN. *)
Definition enriched_in (w : World) (before after : Charity.t) : Prop :=
  after = before
  \/ exists ein d,
       Charity.ein before = Some ein
       /\ every_cache w !! ein = Some (Some d)
       /\ after = merge_detail d before.

(** [charity]'s category code is the non-empty [nteeCode] of the detail the
    cache of [w] holds for its EIN. *)
Definition recoded_in (w : World) (charity : Charity.t) : Prop :=
  exists ein d v,
    Charity.ein charity = Some ein
    /\ every_cache w !! ein = Some (Some d)
    /\ detail_get d "nteeCode" = Some v /\ v ≠ ""
    /\ Charity.nteeCode charity = Some v.

(** A catalog of two charities of category [D20], for the scenarios below. *)
Definition catalog_row (ein name ntee_code state : string) : CharityRow.t :=
  CharityRow.Build (Some ein) (Some name) None (Some state) (Some ntee_code)
    (Some "D").

Definition two_row_table : list CharityRow.t :=
  [catalog_row "1" "Alpha" "D20" "CA"; catalog_row "2" "Beta" "D20" "CA"].

(** [RANDOM()] keeps table order on the first statement and reverses it on
    the later ones. *)
Definition flipping_random (n i : nat) : Z :=
  match n with O => Z.of_nat i | S _ => - Z.of_nat i end.

(** Every.org answers each request with a website for the EIN asked. *)
Definition website_service (n : nat) (ein : string) : HttpOutcome :=
  Response 200 (Payload (Some {[ "websiteUrl" := Some ("https://" ++ ein) ]})).

(** Every.org answers each request with a category code of its own. *)
Definition recoding_service (n : nat) (ein : string) : HttpOutcome :=
  Response 200 (Payload (Some {[ "nteeCode" := Some "Z99" ]})).

(** A charity with a name and an EIN only, for the examples. *)
Definition charity_of (name ein : string) : Charity.t :=
  Charity.Build (Some name) (Some ein) None None None None None.

(** A region code as [normalize_state] produces it: two capital letters. *)
Definition is_state_code (s : string) : bool :=
  (String.length s =? 2)%nat && PyStr.all_chars PyStr.is_upper_char s.

(** The candidates filed under [code]: the normalized rows carrying it. *)
Definition of_category (code : string) (charities : list Charity.t)
  : list Charity.t :=
  List.filter (fun c => bool_decide (Charity.nteeCode c = Some code)) charities.

(** The identity of the first candidate of category [code] is in [seen_ids]. *)
Definition head_seen (pools : PyDict.dict (list Charity.t)) (code : string)
    (st : Selection) : Prop :=
  forall c rest, PyDict.get pools code = Some (c :: rest) ->
                 unique_id code c ∈ seen_ids st.

(** The categories the featured pool is drawn from: those of the six sample
    interest codes, without repetition. *)
Definition featured_deciles : list string :=
  fromkeys
    (flat_map (fun code => default [] (PyDict.get GENERIC_TO_NTEE code))
       sample_generic_codes) [].

(** Every.org cannot be reached. *)
Definition failing_service (n : nat) (ein : string) : HttpOutcome :=
  RequestException.

(** * Properties *)

Example normalize_state_ca : normalize_state " ca " = "CA".
Proof. reflexivity. Qed.

Example normalize_state_any : normalize_state "AnY" = "any".
Proof. reflexivity. Qed.

Example rr_demo :
  round_robin_select
    [("A", [charity_of "a1" "1"; charity_of "a2" "2"; charity_of "a3" "3"]); ("B", [charity_of "b1" "4"])] 3
  = [charity_of "a1" "1"; charity_of "b1" "4"; charity_of "a2" "2"].
Proof. vm_compute. reflexivity. Qed.

(** ** Text helpers *)

Lemma eqb_empty_false (s : string) : s ≠ "" -> String.eqb s "" = false.
Proof. intros H. by apply String.eqb_neq. Qed.

Lemma truthy_Some (o : option string) :
  PyStr.truthy o = true <-> exists s, o = Some s /\ s ≠ "".
Proof.
  destruct o as [s|]; simpl.
  - rewrite negb_true_iff, String.eqb_neq. split.
    + intros H. by exists s.
    + by intros (s' & [= <-] & H).
  - split; [done|]. by intros (s & H & _).
Qed.

Lemma truthy_por (a b : option string) :
  PyStr.truthy (PyStr.por a b) = PyStr.truthy a || PyStr.truthy b.
Proof. unfold PyStr.por. by destruct (PyStr.truthy a) eqn:E; rewrite ?E. Qed.

(** ** [normalize_state] *)

(** C10. A location that, once trimmed, is non-empty, is not "any" in any
    letter case and is not made of exactly two letters is normalized to
    ["any"]: the region filter is dropped, nothing is rejected. *)
Theorem normalize_state_unrecognized_is_any (location : string) :
  PyStr.strip location ≠ "" ->
  PyStr.lower (PyStr.strip location) ≠ "any" ->
  ~ (PyStr.len (PyStr.strip location) = 2
     /\ PyStr.isalpha (PyStr.strip location) = true) ->
  normalize_state location = "any".
Proof.
  intros Hne Hany Htwo. unfold normalize_state.
  rewrite (eqb_empty_false _ Hne).
  destruct (String.eqb_spec (PyStr.lower (PyStr.strip location)) "any") as [|_];
    [done|].
  destruct (Z.eqb_spec (PyStr.len (PyStr.strip location)) 2) as [Hl|]; [|done].
  destruct (PyStr.isalpha (PyStr.strip location)) eqn:Ha; [|done].
  by destruct Htwo.
Qed.

Lemma normalize_state_unrecognized_is_any_witness :
  normalize_state "California" = "any" /\ normalize_state " NY2 " = "any".
Proof.
  split; apply normalize_state_unrecognized_is_any;
    solve [ discriminate | intros [H _]; discriminate H | intros [_ H]; discriminate H ].
Defined.

(** ** The catalog gateway *)

Lemma rows_to_charities_id (rows : list CharityRow.t) :
  _rows_to_charities rows = rows.
Proof.
  unfold _rows_to_charities. induction rows as [|[] rows IH]; simpl; [done|].
  by rewrite IH.
Qed.

Lemma insert_by_key_length {A} (k : Z) (a : A) (l : list (Z * A)) :
  List.length (insert_by_key k a l) = S (List.length l).
Proof.
  induction l as [|[k' a'] l IH]; simpl; [done|].
  destruct (k <=? k'); simpl; by rewrite ?IH.
Qed.

Lemma insert_by_key_perm {A} (k : Z) (a : A) (l : list (Z * A)) :
  insert_by_key k a l ≡ₚ (k, a) :: l.
Proof.
  induction l as [|[k' a'] l IH]; simpl; [done|].
  destruct (k <=? k'); [done|]. rewrite IH. apply Permutation_swap.
Qed.

Lemma sort_by_key_perm {A} (l : list (Z * A)) : sort_by_key l ≡ₚ l.
Proof.
  induction l as [|[k a] l IH]; simpl; [done|].
  rewrite insert_by_key_perm. by rewrite IH.
Qed.

Section CatalogFacts.
Variable table : list CharityRow.t.
Variable sql_random : nat -> nat -> Z.
Variable py_random : Z -> nat -> nat -> nat.

Lemma order_by_random_perm (n : nat) (rows : list CharityRow.t) :
  order_by_random sql_random n rows ≡ₚ rows.
Proof.
  unfold order_by_random. rewrite sort_by_key_perm.
  generalize (sql_random n). intros key. revert key.
  induction rows as [|row rows IH]; intros key; simpl; [done|].
  f_equiv. apply (IH (fun i => key (S i))).
Qed.

Lemma sql_limit_subset {A} (limit : Z) (rows : list A) (x : A) :
  x ∈ sql_limit limit rows -> x ∈ rows.
Proof.
  unfold sql_limit. destruct (limit <? 0); [done|].
  intros (i & Hi & _)%elem_of_take. by eapply list_elem_of_lookup_2.
Qed.

Lemma sql_limit_length {A} (limit : Z) (rows : list A) :
  0 <= limit -> Z.of_nat (List.length (sql_limit limit rows)) <= limit.
Proof.
  intros H. unfold sql_limit. destruct (Z.ltb_spec limit 0); [lia|].
  rewrite length_take. lia.
Qed.

(** Every row a statement returns satisfies its [WHERE] clause. *)
Lemma run_query_where (n : nat) (q : SqlQuery) (row : CharityRow.t) :
  row ∈ run_query table sql_random n q ->
  row ∈ table /\ where_clause q row = true.
Proof.
  unfold run_query. intros H%sql_limit_subset.
  rewrite order_by_random_perm in H.
  apply list_elem_of_In, filter_In in H as [H1 H2].
  by rewrite <- list_elem_of_In in H1.
Qed.

(** C5. With a region filter in force, [fetch_by_deciles] runs the filtered
    statement first. When it yields no row, the same statement (same
    deciles, same limit) is run again without the region filter and its rows
    are returned; when it yields at least one row, those rows are returned
    and the unfiltered statement is never run. *)
Theorem fetch_by_deciles_region_fallback
    (deciles : list string) (state : option string) (limit : Z)
    (region : string) (w : World) :
  _normalize_deciles deciles ≠ [] ->
  _normalize_state state = Some region ->
  let n := List.length (sql_log w) in
  let filtered :=
    {| q_deciles := _normalize_deciles deciles;
       q_state := Some region; q_limit := limit |} in
  let unfiltered :=
    {| q_deciles := _normalize_deciles deciles;
       q_state := None; q_limit := limit |} in
  (run_query table sql_random n filtered = [] ->
   fetch_by_deciles table sql_random deciles state limit w
   = (Ok (run_query table sql_random (S n) unfiltered),
      {| every_cache := every_cache w; http_log := http_log w;
         sql_log := (sql_log w ++ [filtered; unfiltered])%list |}))
  /\
  (run_query table sql_random n filtered ≠ [] ->
   fetch_by_deciles table sql_random deciles state limit w
   = (Ok (run_query table sql_random n filtered),
      {| every_cache := every_cache w; http_log := http_log w;
         sql_log := (sql_log w ++ [filtered])%list |})).
Proof.
  intros Hd Hs n filtered unfiltered. unfold fetch_by_deciles.
  destruct (_normalize_deciles deciles) as [|d ds] eqn:Hc; [done|].
  rewrite Hs. unfold bind, _execute_query, ret. fold n. fold filtered.
  split; intros Hq.
  - rewrite Hq. simpl. rewrite length_app, rows_to_charities_id. simpl.
    rewrite <- app_assoc. simpl. do 3 f_equal. fold n. f_equal. lia.
  - destruct (run_query table sql_random n filtered) as [|r rs] eqn:E; [done|].
    by rewrite rows_to_charities_id.
Qed.
End CatalogFacts.

(** ** The seeded shuffle *)

Section ShuffleFacts.
Context {A : Type}.
Variable py_random : Z -> nat -> nat -> nat.

Lemma insert_swap_head (t : list A) (j : nat) (b h : A) :
  t !! j = Some b -> b :: <[j := h]> t ≡ₚ h :: t.
Proof.
  revert j. induction t as [|c t IH]; intros [|j] Hj; simplify_eq/=.
  - apply Permutation_swap.
  - rewrite Permutation_swap. rewrite (IH j Hj). apply Permutation_swap.
Qed.

Lemma swap_perm (x : list A) (i j : nat) : swap x i j ≡ₚ x.
Proof.
  unfold swap. destruct (x !! i) as [a|] eqn:Hi; [|done].
  destruct (x !! j) as [b|] eqn:Hj; [|done].
  revert i j Hi Hj. induction x as [|h t IH]; intros [|i] [|j] Hi Hj;
    simplify_eq/=; [done| | |].
  - by apply insert_swap_head.
  - by apply insert_swap_head.
  - f_equiv. by apply IH.
Qed.

Lemma shuffle_from_perm (seed : Z) (n i : nat) (x : list A) :
  shuffle_from py_random seed n i x ≡ₚ x.
Proof.
  revert x. induction i as [|i IH]; intros x; simpl; [done|].
  rewrite IH. apply swap_perm.
Qed.

Lemma shuffle_perm (seed : Z) (x : list A) : shuffle py_random seed x ≡ₚ x.
Proof. apply shuffle_from_perm. Qed.

(** A two-element list comes out reversed or unchanged, by the one draw. *)
Lemma shuffle_pair (seed : Z) (a b : A) :
  shuffle py_random seed [a; b]
  = if Nat.eqb (randbelow py_random seed 2 1) 0 then [b; a] else [a; b].
Proof.
  unfold shuffle. simpl. unfold randbelow.
  pose proof (Nat.mod_upper_bound (py_random seed 2 1) 2) as Hlt.
  destruct (py_random seed 2 1 mod 2)%nat as [|[|k]]; simpl; [done|done|lia].
Qed.
End ShuffleFacts.

Section PoolFacts.
Variable table : list CharityRow.t.
Variable sql_random : nat -> nat -> Z.
Variable py_random : Z -> nat -> nat -> nat.

(** [fetch_by_deciles] returns: it never raises, yields at most [limit]
    rows, each a row of the table in one of the cleaned deciles, and it
    leaves the enrichment cache and the request log alone. *)
Lemma fetch_by_deciles_returns
    (deciles : list string) (state : option string) (limit : Z) (w : World) :
  exists rows w',
    fetch_by_deciles table sql_random deciles state limit w = (Ok rows, w')
    /\ (0 <= limit -> Z.of_nat (List.length rows) <= limit)
    /\ (forall row, row ∈ rows ->
          row ∈ table /\
          exists c, CharityRow.ntee_code row = Some c
                    /\ c ∈ _normalize_deciles deciles)
    /\ every_cache w' = every_cache w
    /\ http_log w' = http_log w.
Proof.
  unfold fetch_by_deciles.
  destruct (_normalize_deciles deciles) as [|d ds] eqn:Hc.
  { exists [], w. unfold ret. split_and!; [done|simpl; lia| |done|done].
    by intros row ?%elem_of_nil. }
  assert (Hrow : forall n st row,
    row ∈ run_query table sql_random n
            {| q_deciles := d :: ds; q_state := st; q_limit := limit |} ->
    row ∈ table /\
    exists c, CharityRow.ntee_code row = Some c /\ c ∈ d :: ds).
  { intros n st row [Ht Hw]%run_query_where. split; [done|].
    unfold where_clause in Hw. simpl in Hw.
    destruct (CharityRow.ntee_code row) as [c|]; [|done].
    apply andb_true_iff in Hw as [Hw _]. apply bool_decide_eq_true in Hw.
    by exists c. }
  assert (Hlen : forall n st, 0 <= limit ->
    Z.of_nat (List.length (run_query table sql_random n
      {| q_deciles := d :: ds; q_state := st; q_limit := limit |})) <= limit).
  { intros n st H0. unfold run_query. by apply sql_limit_length. }
  destruct (_normalize_state state) as [region|];
    unfold bind, _execute_query, ret; simpl.
  - destruct (run_query table sql_random (List.length (sql_log w))
                {| q_deciles := d :: ds; q_state := Some region;
                   q_limit := limit |}) as [|r rs] eqn:E.
    + eexists _, _. split; [done|]. rewrite rows_to_charities_id.
      split_and!; [apply Hlen|apply Hrow|done|done].
    + eexists _, _. split; [done|]. rewrite rows_to_charities_id, <- E.
      split_and!; [apply Hlen|apply Hrow|done|done].
  - eexists _, _. split; [done|]. rewrite rows_to_charities_id.
    split_and!; [apply Hlen|apply Hrow|done|done].
Qed.

(** C6. For a positive [pool_size], [fetch_random_pool_for_deciles] fetches
    up to [max(pool_size * 3, pool_size)] rows; with a seed it returns the
    first [pool_size] rows of the seeded shuffle of that whole list (a
    rearrangement of all fetched rows), without a seed the first
    [pool_size] rows in fetched order. *)
Theorem fetch_random_pool_shuffles_then_truncates
    (deciles : list string) (state : option string) (pool_size : Z)
    (seed : option Z) (w : World) :
  0 < pool_size ->
  exists fetched w',
    fetch_by_deciles table sql_random deciles state
      (Z.max (pool_size * 3) pool_size) w = (Ok fetched, w')
    /\ Z.of_nat (List.length fetched) <= Z.max (pool_size * 3) pool_size
    /\ fetch_random_pool_for_deciles table sql_random py_random
         deciles state pool_size seed w
       = (Ok (take (Z.to_nat pool_size)
                match seed with
                | Some s => shuffle py_random s fetched
                | None => fetched
                end), w')
    /\ (forall s, shuffle py_random s fetched ≡ₚ fetched).
Proof.
  intros Hpos.
  destruct (fetch_by_deciles_returns deciles state
              (Z.max (pool_size * 3) pool_size) w)
    as (fetched & w' & Hf & Hlen & _).
  exists fetched, w'. split; [done|]. split; [apply Hlen; lia|]. split.
  - unfold fetch_random_pool_for_deciles.
    destruct (Z.leb_spec pool_size 0); [lia|].
    unfold bind. rewrite Hf. done.
  - intros s. apply shuffle_perm.
Qed.
End PoolFacts.

(** ** Merging a detail into a charity *)

Lemma supplied_nonempty (detail : Detail) (keys : list string) (v : string) :
  supplied detail keys = Some v -> v ≠ "".
Proof.
  induction keys as [|k keys IH]; simpl; [done|].
  destruct (PyStr.truthy (detail_get detail k)) eqn:E; [|done].
  apply truthy_Some in E as (s & Hs & Hne). rewrite Hs. by intros [= <-].
Qed.

Lemma field_updated_intro (detail : Detail) (keys : list string)
    (old new : option string) :
  new = match supplied detail keys with Some v => Some v | None => old end ->
  field_updated (supplied detail keys) old new.
Proof.
  intros ->. unfold field_updated.
  destruct (supplied detail keys) as [v|] eqn:E; [|done].
  split; [by eapply supplied_nonempty|done].
Qed.

Ltac case_truthy :=
  repeat match goal with
    | |- context [PyStr.truthy ?o] =>
        lazymatch o with
        | context [PyStr.truthy] => fail
        | _ =>
            let E := fresh "E" in
            destruct (PyStr.truthy o) eqn:E;
            try (apply truthy_Some in E as (? & -> & ?))
        end
    end.

(** C8. Applying a detail to a charity record sets each of [profileUrl],
    [websiteUrl], [description], [location] and [nteeCode] to the non-empty
    value the detail supplies for it (under the keys the code reads, in
    order), and leaves the field as it was when the detail supplies none; so
    no field is ever set to null or to the empty string, and [name] and [ein]
    are untouched. *)
Theorem merge_detail_fills_only_nonempty (detail : Detail) (charity : Charity.t) :
  let merged := merge_detail detail charity in
  field_updated (supplied detail ["profileUrl"; "profile"; "url"])
    (Charity.profileUrl charity) (Charity.profileUrl merged)
  /\ field_updated (supplied detail ["websiteUrl"; "website"])
       (Charity.websiteUrl charity) (Charity.websiteUrl merged)
  /\ field_updated (supplied detail ["description"; "mission"])
       (Charity.description charity) (Charity.description merged)
  /\ field_updated (supplied detail ["location"; "locationName"])
       (Charity.location charity) (Charity.location merged)
  /\ field_updated (supplied detail ["nteeCode"])
       (Charity.nteeCode charity) (Charity.nteeCode merged)
  /\ Charity.name merged = Charity.name charity
  /\ Charity.ein merged = Charity.ein charity.
Proof.
  intros merged. subst merged.
  split_and!; try done; apply field_updated_intro; simpl; unfold PyStr.por;
    case_truthy; simpl; try done; try congruence;
    match goal with
    | E : PyStr.truthy (Some ?x) = false |- _ =>
        apply negb_false_iff, String.eqb_eq in E; done
    end.
Qed.

(** ** The enrichment cache *)

Section CacheFacts.
Variable http_get : nat -> string -> HttpOutcome.
Variable EVERY_API_KEY : option string.

Local Abbreviation fetch := (fetch_every_nonprofit_detail http_get EVERY_API_KEY).

(** A cached detail is served without any request. *)
Lemma fetch_hit (ein : string) (d : Detail) (w : World) :
  ein ≠ "" -> every_cache w !! ein = Some (Some d) ->
  fetch ein w = (Ok (Some d), w).
Proof.
  intros Hne Hc. unfold fetch_every_nonprofit_detail.
  rewrite (eqb_empty_false _ Hne). unfold bind, cache_get. by rewrite Hc.
Qed.

(** Anything else (no entry, or a stored [None]) goes to the network. *)
Lemma fetch_miss (ein : string) (w : World) :
  ein ≠ "" -> PyStr.truthy EVERY_API_KEY = true ->
  mjoin (every_cache w !! ein) = None ->
  fetch ein w
  = (Ok (resolved_detail (http_get (List.length (http_log w)) ein)),
     {| every_cache :=
          <[ein := resolved_detail (http_get (List.length (http_log w)) ein)]>
            (every_cache w);
        http_log := (http_log w ++ [ein])%list;
        sql_log := sql_log w |}).
Proof.
  intros Hne Hk Hc. unfold fetch_every_nonprofit_detail.
  rewrite (eqb_empty_false _ Hne). unfold bind, cache_get. rewrite Hc.
  unfold get_api_key. rewrite Hk. unfold ret, requests_get, cache_store.
  destruct (http_get (List.length (http_log w)) ein) as [|status body];
    simpl; [done|].
  destruct (status >=? 400); simpl; [by destruct body as [|[]]|].
  destruct body as [|[nonprofit|]]; simpl; [done| |done].
  by destruct (decide (nonprofit = ∅)); simpl;
    [rewrite bool_decide_eq_true_2|rewrite bool_decide_eq_false_2].
Qed.

(** C1 as the code has it: after a lookup has resolved an identifier to a
    negative result and stored it, the next lookup of the same identifier
    does not use the stored negative; it sends a second request. *)
Theorem negative_result_is_fetched_again (ein : string) (w : World) :
  ein ≠ "" -> PyStr.truthy EVERY_API_KEY = true ->
  mjoin (every_cache w !! ein) = None ->
  negative_outcome (http_get (List.length (http_log w)) ein) = true ->
  exists w1 r2 w2,
    fetch ein w = (Ok None, w1)
    /\ every_cache w1 !! ein = Some None
    /\ http_log w1 = (http_log w ++ [ein])%list
    /\ fetch ein w1 = (r2, w2)
    /\ http_log w2 = (http_log w ++ [ein; ein])%list.
Proof.
  intros Hne Hk Hc Hneg.
  assert (Hres : resolved_detail (http_get (List.length (http_log w)) ein) = None).
  { unfold resolved_detail.
    destruct (http_get _ ein) as [|s [|[d|]]]; try done. by rewrite Hneg. }
  pose proof (fetch_miss ein w Hne Hk Hc) as H1. rewrite Hres in H1.
  eexists _, _, _. split; [exact H1|]. simpl.
  split; [by rewrite lookup_insert_eq|]. split; [done|].
  split.
  - apply fetch_miss; [done|done|]. simpl. by rewrite lookup_insert_eq.
  - simpl. by rewrite <- app_assoc.
Qed.
End CacheFacts.

Lemma negative_result_is_fetched_again_witness :
  exists w1 r2 w2,
    fetch_every_nonprofit_detail (fun _ _ => RequestException) (Some "key")
      "131624102" initial_world = (Ok None, w1)
    /\ every_cache w1 !! "131624102" = Some None
    /\ http_log w1 = ["131624102"]
    /\ fetch_every_nonprofit_detail (fun _ _ => RequestException) (Some "key")
         "131624102" w1 = (r2, w2)
    /\ http_log w2 = ["131624102"; "131624102"].
Proof.
  apply (negative_result_is_fetched_again (fun _ _ => RequestException)
           (Some "key") "131624102" initial_world); [discriminate|reflexivity..].
Defined.

(** ** The fair selector *)

Lemma dict_get_elem_of {V} (d : PyDict.dict V) (k : string) (v : V) :
  PyDict.get d k = Some v -> (k, v) ∈ d.
Proof.
  induction d as [|[k' v'] d IH]; simpl; [done|].
  destruct (String.eqb_spec k' k) as [->|_].
  - intros [= ->]. apply list_elem_of_here.
  - intros H. apply list_elem_of_further. by apply IH.
Qed.

Lemma dict_elem_of_get {V} (d : PyDict.dict V) (k : string) (v : V) :
  NoDup (PyDict.keys d) -> (k, v) ∈ d -> PyDict.get d k = Some v.
Proof.
  unfold PyDict.keys. induction d as [|[k' v'] d IH]; simpl.
  - by intros _ ?%elem_of_nil.
  - intros [Hk Hd]%NoDup_cons [[= <- <-]|Hin]%elem_of_cons.
    + by rewrite String.eqb_refl.
    + destruct (String.eqb_spec k' k) as [->|_]; [|by apply IH].
      destruct Hk. apply list_elem_of_fmap. by exists (k, v).
Qed.

Lemma unique_id_nonempty (code : string) (charity : Charity.t) :
  unique_id code charity ≠ "".
Proof.
  unfold unique_id.
  destruct (PyStr.truthy (Charity.ein charity)) eqn:E1.
  { by apply truthy_Some in E1 as (s & -> & Hs). }
  destruct (PyStr.truthy (Charity.profileUrl charity)) eqn:E2.
  { by apply truthy_Some in E2 as (s & -> & Hs). }
  destruct (py_format (Charity.name charity)); simpl; discriminate.
Qed.

Lemma scan_fresh (code : string) (seen : gset string) (charity : Charity.t)
    (rest : list Charity.t) (idx : nat) :
  unique_id code charity ∉ seen ->
  scan code seen (charity :: rest) idx
  = Some (charity, unique_id code charity, S idx).
Proof.
  intros H. simpl. rewrite (eqb_empty_false _ (unique_id_nonempty _ _)).
  by rewrite bool_decide_eq_false_2.
Qed.

Lemma scan_seen (code : string) (seen : gset string) (charity : Charity.t)
    (rest : list Charity.t) (idx : nat) :
  unique_id code charity ∈ seen ->
  scan code seen (charity :: rest) idx = scan code seen rest (S idx).
Proof.
  intros H. simpl. rewrite bool_decide_eq_true_2 by done. by rewrite orb_true_r.
Qed.

(** What the inner loop finds: the first candidate with a new identity. *)
Lemma scan_Some (code : string) (seen : gset string) (rest : list Charity.t)
    (idx : nat) (charity : Charity.t) (uid : string) (idx' : nat) :
  scan code seen rest idx = Some (charity, uid, idx') ->
  exists pre post,
    rest = (pre ++ (charity :: post))%list
    /\ (forall c, c ∈ pre -> unique_id code c ∈ seen)
    /\ uid = unique_id code charity
    /\ (uid ∉ seen)
    /\ idx' = (idx + List.length pre + 1)%nat.
Proof.
  revert idx. induction rest as [|c rest IH]; intros idx; [done|].
  destruct (decide (unique_id code c ∈ seen)) as [Hin|Hnin].
  - rewrite scan_seen by done. intros (pre & post & -> & Hpre & -> & Hn & ->)%IH.
    exists (c :: pre), post. split_and!; try done.
    + intros c' [->|?]%elem_of_cons; auto.
    + simpl. lia.
  - rewrite scan_fresh by done. intros [= <- <- <-].
    exists [], rest. split_and!; try done.
    + by intros c' ?%elem_of_nil.
    + simpl. lia.
Qed.

Lemma scan_None (code : string) (seen : gset string) (rest : list Charity.t)
    (idx : nat) :
  scan code seen rest idx = None ->
  forall c, c ∈ rest -> unique_id code c ∈ seen.
Proof.
  revert idx. induction rest as [|c rest IH]; intros idx.
  - by intros _ c ?%elem_of_nil.
  - destruct (decide (unique_id code c ∈ seen)) as [Hin|Hnin].
    + rewrite scan_seen by done. intros H c' [->|?]%elem_of_cons; [done|].
      by eapply IH.
    + by rewrite scan_fresh.
Qed.

Lemma take_turn_cases (pools : PyDict.dict (list Charity.t)) (code : string)
    (st : Selection) (progressed : bool) :
  (take_turn pools code st progressed = (st, progressed)
   /\ forall l, PyDict.get pools code = Some l ->
      forall c, c ∈ drop (cursor st code) l -> unique_id code c ∈ seen_ids st)
  \/
  (exists l pre charity post,
     PyDict.get pools code = Some l
     /\ drop (cursor st code) l = (pre ++ (charity :: post))%list
     /\ (forall c, c ∈ pre -> unique_id code c ∈ seen_ids st)
     /\ (unique_id code charity ∉ seen_ids st)
     /\ take_turn pools code st progressed
        = ({| selected := (selected st ++ [charity])%list;
              seen_ids := {[unique_id code charity]} ∪ seen_ids st;
              indices := <[code := (cursor st code + List.length pre + 1)%nat]>
                           (indices st) |}, true)).
Proof.
  unfold take_turn. fold (cursor st code).
  destruct (scan code (seen_ids st)
              (drop (cursor st code) (default [] (PyDict.get pools code)))
              (cursor st code)) as [[[charity uid] idx']|] eqn:E.
  - right. apply scan_Some in E as (pre & post & Hd & Hpre & -> & Hn & ->).
    destruct (PyDict.get pools code) as [l|] eqn:Hg; simpl in Hd.
    + by exists l, pre, charity, post.
    + rewrite drop_nil in Hd. by destruct pre.
  - left. split; [done|]. intros l Hl c Hc. rewrite Hl in E. simpl in E.
    by eapply scan_None.
Qed.

Lemma cursor_insert (st : Selection) (sel : list Charity.t) (seen : gset string)
    (code code' : string) (n : nat) :
  cursor {| selected := sel; seen_ids := seen;
            indices := <[code := n]> (indices st) |} code'
  = if decide (code = code') then n else cursor st code'.
Proof.
  unfold cursor. simpl. rewrite lookup_insert. by destruct (decide (code = code')).
Qed.

(** One turn keeps the invariant; it either appends one entry, or changes
    nothing because every candidate of the category is already seen. *)
Lemma take_turn_inv (pools : PyDict.dict (list Charity.t)) (code : string)
    (st : Selection) (progressed : bool) (ids : list string) :
  selection_inv pools ids st ->
  exists ids' st' progressed',
    take_turn pools code st progressed = (st', progressed')
    /\ selection_inv pools ids' st'
    /\ ((st' = st /\ progressed' = progressed
         /\ exhausted pools [code] st)
        \/ (progressed' = true
            /\ List.length (selected st') = S (List.length (selected st)))).
Proof.
  intros [Hnd Hsel Hseen Hcur].
  destruct (take_turn_cases pools code st progressed)
    as [[Heq Hrest]|(l & pre & charity & post & Hg & Hd & Hpre & Hnew & Heq)].
  - exists ids, st, progressed. split; [done|]. split; [done|]. left.
    split_and!; try done.
    intros code' l' ->%list_elem_of_singleton Hg c Hc.
    rewrite <- (take_drop (cursor st code) l') in Hc.
    apply elem_of_app in Hc as [Hc|Hc]; [by eapply Hcur|by eapply Hrest].
  - eexists (ids ++ [unique_id code charity])%list, _, true.
    split; [exact Heq|]. split; [|right; split; [done|]; simpl;
      rewrite length_app; simpl; lia].
    assert (Hin : charity ∈ l).
    { rewrite <- (take_drop (cursor st code) l), Hd.
      apply elem_of_app. right. apply elem_of_app. right. apply list_elem_of_here. }
    split; simpl.
    + apply NoDup_app. split_and!; [done| |apply NoDup_singleton].
      intros x Hx ->%list_elem_of_singleton. apply Hnew. rewrite Hseen.
      by apply elem_of_list_to_set.
    + apply Forall2_app; [done|]. constructor; [|constructor].
      by exists code, l.
    + rewrite Hseen, list_to_set_app_L. simpl.
      rewrite (right_id_L ∅ (∪)). apply (comm_L (∪)).
    + intros code' l' Hg' c. rewrite cursor_insert.
      destruct (decide (code = code')) as [<-|Hne].
      * assert (l' = l) as -> by congruence.
        rewrite <- Nat.add_assoc, <- take_take_drop, Hd.
        replace (pre ++ (charity :: post))%list
          with ((pre ++ [charity]) ++ post)%list by by rewrite <- app_assoc.
        rewrite take_app_length' by (rewrite length_app; simpl; lia).
        intros Hc. apply elem_of_app in Hc as [Hc|Hc];
          [|apply elem_of_app in Hc as [Hc|Hc]].
        -- apply elem_of_union_r. by eapply Hcur.
        -- apply elem_of_union_r. by apply Hpre.
        -- apply list_elem_of_singleton in Hc as ->.
           apply elem_of_union_l. by apply elem_of_singleton.
      * intros Hc. apply elem_of_union_r. by eapply Hcur.
Qed.

Lemma exhausted_cons (pools : PyDict.dict (list Charity.t)) (code : string)
    (codes : list string) (st : Selection) :
  exhausted pools [code] st -> exhausted pools codes st ->
  exhausted pools (code :: codes) st.
Proof.
  intros H1 H2 code' l [->|Hin]%elem_of_cons.
  - apply H1. by apply list_elem_of_singleton.
  - by apply H2.
Qed.

(** One round: the invariant is kept and the limit is not exceeded; a round
    without progress changed nothing and found every category exhausted, a
    round with progress appended at least one entry. *)
Lemma for_codes_inv (pools : PyDict.dict (list Charity.t)) (limit : Z)
    (codes : list string) (st : Selection) (progressed : bool)
    (ids : list string) :
  selection_inv pools ids st ->
  Z.of_nat (List.length (selected st)) < limit ->
  exists ids' st' progressed',
    for_codes pools limit codes st progressed = (st', progressed')
    /\ selection_inv pools ids' st'
    /\ Z.of_nat (List.length (selected st')) <= limit
    /\ (List.length (selected st) <= List.length (selected st'))%nat
    /\ (progressed' = false ->
        progressed = false /\ st' = st /\ exhausted pools codes st)
    /\ (progressed' = true ->
        progressed = true
        \/ (List.length (selected st) < List.length (selected st'))%nat).
Proof.
  revert st progressed ids.
  induction codes as [|code codes IH]; intros st progressed ids Hinv Hlt; simpl.
  { exists ids, st, progressed. split_and!; try done; try lia.
    - intros ->. split_and!; try done. by intros code l ?%elem_of_nil.
    - intros ->. by left. }
  destruct (take_turn_inv pools code st progressed ids Hinv)
    as (ids1 & st1 & p1 & Heq & Hinv1 & [(-> & -> & Hex)|(-> & Hlen)]);
    rewrite Heq.
  - destruct (Z.geb_spec (Z.of_nat (List.length (selected st))) limit); [lia|].
    destruct (IH st progressed ids1 Hinv1 Hlt)
      as (ids' & st' & p' & -> & Hinv' & Hle & Hmono & Hf & Ht).
    exists ids', st', p'. split_and!; try done.
    intros Hp. destruct (Hf Hp) as (-> & -> & Hex'). split_and!; try done.
    by apply exhausted_cons.
  - destruct (Z.geb_spec (Z.of_nat (List.length (selected st1))) limit).
    + exists ids1, st1, true.
      split_and!; first [done | lia | intros _; right; lia].
    + destruct (IH st1 true ids1 Hinv1 ltac:(lia))
        as (ids' & st' & p' & -> & Hinv' & Hle & Hmono & Hf & Ht).
      exists ids', st', p'.
      split_and!; first [done | lia | intros Hp; by destruct (Hf Hp) as [? _]
                        | intros _; right; lia].
Qed.

(** The loop exits by itself within [limit - len(selected)] rounds, with the
    invariant, at the limit or with every category exhausted. *)
Lemma rounds_inv (pools : PyDict.dict (list Charity.t)) (limit : Z)
    (codes : list string) (fuel : nat) (st : Selection) (ids : list string) :
  selection_inv pools ids st ->
  Z.of_nat (List.length (selected st)) <= limit ->
  (Z.to_nat (limit - Z.of_nat (List.length (selected st))) <= fuel)%nat ->
  exists ids' st',
    rounds pools limit codes fuel st = Some st'
    /\ selection_inv pools ids' st'
    /\ (Z.of_nat (List.length (selected st')) = limit
        \/ (Z.of_nat (List.length (selected st')) < limit
            /\ exhausted pools codes st')).
Proof.
  revert st ids. induction fuel as [|fuel IH]; intros st ids Hinv Hle Hfuel.
  - simpl. destruct (Z.ltb_spec (Z.of_nat (List.length (selected st))) limit);
      [lia|].
    exists ids, st. split_and!; [done|done|left; lia].
  - simpl. destruct (Z.ltb_spec (Z.of_nat (List.length (selected st))) limit);
      [|exists ids, st; split_and!; [done|done|left; lia]].
    destruct (for_codes_inv pools limit codes st false ids Hinv ltac:(done))
      as (ids1 & st1 & p1 & -> & Hinv1 & Hle1 & Hmono & Hf & Ht).
    destruct p1.
    + destruct (Ht eq_refl) as [?|Hgrow]; [done|].
      apply (IH st1 ids1 Hinv1 Hle1). lia.
    + destruct (Hf eq_refl) as (_ & -> & Hex).
      exists ids1, st. split_and!; [done|done|by right].
Qed.

Lemma rounds_more_fuel (pools : PyDict.dict (list Charity.t)) (limit : Z)
    (codes : list string) (fuel fuel' : nat) (st st' : Selection) :
  rounds pools limit codes fuel st = Some st' -> (fuel <= fuel')%nat ->
  rounds pools limit codes fuel' st = Some st'.
Proof.
  revert fuel' st. induction fuel as [|fuel IH]; intros fuel' st; simpl.
  - destruct (Z.of_nat (List.length (selected st)) <? limit) eqn:E; [done|].
    intros [= <-] _. destruct fuel'; simpl; by rewrite E.
  - destruct (Z.of_nat (List.length (selected st)) <? limit) eqn:E.
    + intros H Hle. destruct fuel' as [|fuel']; [lia|]. simpl. rewrite E.
      destruct (for_codes pools limit codes st false) as [st1 [|]]; [|done].
      apply IH; [done|lia].
    + intros [= <-] _. destruct fuel'; simpl; by rewrite E.
Qed.

Lemma initial_cursor (codes : list string) (code : string) :
  cursor (initial_selection codes) code = 0%nat.
Proof.
  unfold cursor, initial_selection. simpl.
  induction codes as [|c codes IH]; simpl; [done|].
  rewrite lookup_insert. by destruct (decide (c = code)).
Qed.

Lemma initial_selection_inv (pools : PyDict.dict (list Charity.t))
    (codes : list string) :
  selection_inv pools [] (initial_selection codes).
Proof.
  split; simpl; [constructor|constructor|done|].
  intros code l _ c. rewrite initial_cursor. by intros ?%elem_of_nil.
Qed.

Lemma working_codes_elem_of (pools : PyDict.dict (list Charity.t))
    (code : string) (l : list Charity.t) :
  (code, l) ∈ pools -> l ≠ [] -> code ∈ working_codes pools.
Proof.
  intros Hin Hne. unfold working_codes. apply list_elem_of_fmap.
  exists (code, l). split; [done|]. apply list_elem_of_In, filter_In.
  split; [by apply list_elem_of_In|]. simpl. by destruct l.
Qed.

(** [round_robin_select] is the result of the loop run to its own exit: any
    number of rounds from [limit] on gives it, and it satisfies the invariant
    at the limit or with every category exhausted. *)
Lemma round_robin_run_enough (pools : PyDict.dict (list Charity.t)) (limit : Z) :
  0 <= limit ->
  exists ids st,
    (forall fuel, (Z.to_nat limit <= fuel)%nat ->
       round_robin_run fuel pools limit = Some (selected st))
    /\ round_robin_select pools limit = selected st
    /\ selection_inv pools ids st
    /\ (Z.of_nat (List.length (selected st)) = limit
        \/ (Z.of_nat (List.length (selected st)) < limit
            /\ exhausted pools (working_codes pools) st)).
Proof.
  intros Hlimit. unfold round_robin_select, round_robin_run.
  destruct (working_codes pools) as [|code codes] eqn:Hcodes.
  - exists [], (initial_selection []). split_and!; try done.
    { apply initial_selection_inv. }
    simpl. destruct (decide (limit = 0)); [by left|right].
    split; [lia|]. by intros code l ?%elem_of_nil.
  - destruct (rounds_inv pools limit (code :: codes) (Z.to_nat limit)
                (initial_selection (code :: codes)) []
                (initial_selection_inv _ _) ltac:(simpl; lia) ltac:(simpl; lia))
      as (ids & st & Hrun & Hinv & Hout).
    exists ids, st. split_and!; try done.
    + intros fuel Hfuel.
      by rewrite (rounds_more_fuel _ _ _ _ fuel _ _ Hrun Hfuel).
    + by rewrite Hrun.
Qed.

Lemma candidate_identity_elem_of (pools : PyDict.dict (list Charity.t))
    (id : string) (charity : Charity.t) :
  candidate_identity pools id charity -> id ∈ dedup_identities pools.
Proof.
  intros (code & l & Hg & Hin & ->). unfold dedup_identities.
  apply elem_of_list_to_set, list_elem_of_In, in_flat_map.
  exists (code, l). split.
  - by apply list_elem_of_In, dict_get_elem_of.
  - simpl. apply in_map. by apply list_elem_of_In.
Qed.

Lemma exhausted_covers (pools : PyDict.dict (list Charity.t)) (st : Selection) :
  NoDup (PyDict.keys pools) ->
  exhausted pools (working_codes pools) st ->
  dedup_identities pools ⊆ seen_ids st.
Proof.
  intros Hnd Hex id. unfold dedup_identities.
  intros Hid%elem_of_list_to_set%list_elem_of_In%in_flat_map.
  destruct Hid as ([code l] & Hp%list_elem_of_In & Hid). simpl in Hid.
  apply in_map_iff in Hid as (c & <- & Hc%list_elem_of_In).
  apply (Hex code l); [|by apply dict_elem_of_get|done].
  apply (working_codes_elem_of pools code l Hp). intros ->.
  by apply elem_of_nil in Hc.
Qed.

(** C2. For a pools dict (distinct keys) and a positive limit,
    [round_robin_select] returns (the loop exits by itself) a list whose
    length is [min(limit, number of distinct dedup identities among all
    candidates)], and whose entries carry pairwise distinct dedup
    identities, each entry's identity being the one computed in the category
    that lists it; when every candidate carries the code of its category,
    these are the identities read off the entries. Empty candidate lists are
    allowed as well. *)
Theorem round_robin_select_length_and_dedup
    (pools : PyDict.dict (list Charity.t)) (limit : Z) :
  NoDup (PyDict.keys pools) ->
  0 < limit ->
  (forall fuel, (Z.to_nat limit <= fuel)%nat ->
     round_robin_run fuel pools limit = Some (round_robin_select pools limit))
  /\ Z.of_nat (List.length (round_robin_select pools limit))
     = Z.min limit (Z.of_nat (size (dedup_identities pools)))
  /\ (exists ids,
       Forall2 (candidate_identity pools) ids (round_robin_select pools limit)
       /\ NoDup ids)
  /\ ((forall code l c, (code, l) ∈ pools -> c ∈ l ->
                        Charity.nteeCode c = Some code) ->
      NoDup (map entry_identity (round_robin_select pools limit))).
Proof.
  intros Hkeys Hlimit.
  destruct (round_robin_run_enough pools limit ltac:(lia))
    as (ids & st & Hrun & -> & [Hnd Hsel Hseen Hcur] & Hout).
  split; [done|]. split; [|split; [by exists ids|]].
  - assert (Hlen : List.length (selected st) = size (seen_ids st)).
    { rewrite Hseen, size_list_to_set by done. symmetry. by eapply Forall2_length. }
    assert (Hsub : seen_ids st ⊆ dedup_identities pools).
    { intros id. rewrite Hseen. intros Hid%elem_of_list_to_set.
      apply list_elem_of_lookup in Hid as [i Hi].
      destruct (Forall2_lookup_l _ _ _ _ _ Hsel Hi) as (c & _ & Hc).
      by eapply candidate_identity_elem_of. }
    destruct Hout as [Hfull|[Hless Hex]].
    + apply subseteq_size in Hsub. lia.
    + assert (seen_ids st = dedup_identities pools) as <-.
      { apply set_eq. intros id. split; [apply Hsub|].
        by apply exhausted_covers. }
      lia.
  - intros Hcode. replace (map entry_identity (selected st)) with ids; [done|].
    clear -Hsel Hcode. induction Hsel as [|id c ids sel Hc _ IH]; [done|].
    simpl. f_equal; [|done].
    destruct Hc as (code & l & Hg%dict_get_elem_of & Hin & ->).
    unfold entry_identity. by rewrite (Hcode code l c Hg Hin).
Qed.

Lemma round_robin_select_length_and_dedup_witness :
  let pools :=
    [("A", [charity_of "a1" "1"; charity_of "a2" "2"; charity_of "a1bis" "1"]);
     ("B", [charity_of "b1" "2"; charity_of "b2" "3"])] in
  size (dedup_identities pools) = 3%nat
  /\ round_robin_select pools 2 = [charity_of "a1" "1"; charity_of "b1" "2"]
  /\ Z.of_nat (List.length (round_robin_select pools 2))
     = Z.min 2 (Z.of_nat (size (dedup_identities pools)))
  /\ Z.of_nat (List.length (round_robin_select pools 5))
     = Z.min 5 (Z.of_nat (size (dedup_identities pools))).
Proof.
  intros pools. split; [by vm_compute|]. split; [by vm_compute|]. split.
  - apply (round_robin_select_length_and_dedup pools 2); [|lia].
    apply (bool_decide_unpack _). by vm_compute.
  - apply (round_robin_select_length_and_dedup pools 5); [|lia].
    apply (bool_decide_unpack _). by vm_compute.
Defined.

(** A turn that finds an unseen candidate right at the cursor. *)
Lemma take_turn_pick (pools : PyDict.dict (list Charity.t)) (code : string)
    (st : Selection) (progressed : bool) (l : list Charity.t) (idx : nat)
    (charity : Charity.t) (post : list Charity.t) :
  PyDict.get pools code = Some l ->
  cursor st code = idx ->
  drop idx l = charity :: post ->
  unique_id code charity ∉ seen_ids st ->
  take_turn pools code st progressed
  = ({| selected := (selected st ++ [charity])%list;
        seen_ids := {[unique_id code charity]} ∪ seen_ids st;
        indices := <[code := S idx]> (indices st) |}, true).
Proof.
  intros Hg Hc Hd Hn. unfold take_turn. fold (cursor st code).
  rewrite Hg, Hc. simpl. rewrite Hd. by rewrite scan_fresh.
Qed.

Lemma for_codes_continue (pools : PyDict.dict (list Charity.t)) (limit : Z)
    (code : string) (codes : list string) (st st' : Selection)
    (progressed progressed' : bool) :
  take_turn pools code st progressed = (st', progressed') ->
  Z.of_nat (List.length (selected st')) < limit ->
  for_codes pools limit (code :: codes) st progressed
  = for_codes pools limit codes st' progressed'.
Proof.
  intros Ht Hlt. simpl. rewrite Ht.
  by destruct (Z.geb_spec (Z.of_nat (List.length (selected st'))) limit); [lia|].
Qed.

Lemma for_codes_break (pools : PyDict.dict (list Charity.t)) (limit : Z)
    (code : string) (codes : list string) (st st' : Selection)
    (progressed progressed' : bool) :
  take_turn pools code st progressed = (st', progressed') ->
  limit <= Z.of_nat (List.length (selected st')) ->
  for_codes pools limit (code :: codes) st progressed = (st', progressed').
Proof.
  intros Ht Hlt. simpl. rewrite Ht.
  by destruct (Z.geb_spec (Z.of_nat (List.length (selected st'))) limit); [|lia].
Qed.

Lemma rounds_step (pools : PyDict.dict (list Charity.t)) (limit : Z)
    (codes : list string) (fuel : nat) (st st' : Selection) :
  Z.of_nat (List.length (selected st)) < limit ->
  for_codes pools limit codes st false = (st', true) ->
  rounds pools limit codes (S fuel) st = rounds pools limit codes fuel st'.
Proof.
  intros Hlt Hf. simpl. rewrite Hf.
  by destruct (Z.ltb_spec (Z.of_nat (List.length (selected st))) limit); [|lia].
Qed.

Lemma rounds_stop (pools : PyDict.dict (list Charity.t)) (limit : Z)
    (codes : list string) (fuel : nat) (st : Selection) :
  limit <= Z.of_nat (List.length (selected st)) ->
  rounds pools limit codes fuel st = Some st.
Proof.
  intros Hle.
  destruct fuel; simpl;
    by destruct (Z.ltb_spec (Z.of_nat (List.length (selected st))) limit); [lia|].
Qed.

(** C4. For pools [{A: [a1, a2, a3], B: [b1]}] whose four candidates have
    pairwise distinct dedup identities, and [limit = 3], the selection is
    exactly [[a1, b1, a2]]: one entry per category in the order of the pools,
    the exhausted category [B] being skipped while [A] goes on. *)
Theorem round_robin_select_interleaves
    (A B : string) (a1 a2 a3 b1 : Charity.t) :
  A ≠ B ->
  NoDup [unique_id A a1; unique_id A a2; unique_id A a3; unique_id B b1] ->
  round_robin_run 3 [(A, [a1; a2; a3]); (B, [b1])] 3 = Some [a1; b1; a2]
  /\ round_robin_select [(A, [a1; a2; a3]); (B, [b1])] 3 = [a1; b1; a2].
Proof.
  intros Hne Hnd.
  assert (Hrun : round_robin_run 3 [(A, [a1; a2; a3]); (B, [b1])] 3
                 = Some [a1; b1; a2]);
    [|split; [done|]; unfold round_robin_select;
      by change (Z.to_nat 3) with 3%nat; rewrite Hrun].
  apply NoDup_cons in Hnd as [H1 Hnd]. apply NoDup_cons in Hnd as [H2 Hnd].
  apply NoDup_cons in Hnd as [H3 _].
  set (pools := [(A, [a1; a2; a3]); (B, [b1])]).
  assert (HgA : PyDict.get pools A = Some [a1; a2; a3]).
  { simpl. by rewrite String.eqb_refl. }
  assert (HgB : PyDict.get pools B = Some [b1]).
  { simpl. rewrite (proj2 (String.eqb_neq A B) Hne). by rewrite String.eqb_refl. }
  unfold round_robin_run. change (working_codes pools) with [A; B].
  set (st0 := initial_selection [A; B]).
  pose (st1 := {| selected := (selected st0 ++ [a1])%list;
                  seen_ids := {[unique_id A a1]} ∪ seen_ids st0;
                  indices := <[A := 1%nat]> (indices st0) |}).
  pose (st2 := {| selected := (selected st1 ++ [b1])%list;
                  seen_ids := {[unique_id B b1]} ∪ seen_ids st1;
                  indices := <[B := 1%nat]> (indices st1) |}).
  pose (st3 := {| selected := (selected st2 ++ [a2])%list;
                  seen_ids := {[unique_id A a2]} ∪ seen_ids st2;
                  indices := <[A := 2%nat]> (indices st2) |}).
  assert (T1 : take_turn pools A st0 false = (st1, true)).
  { apply (take_turn_pick pools A st0 false [a1; a2; a3] 0 a1 [a2; a3]);
      [done|apply initial_cursor|done|]. simpl. set_solver. }
  assert (T2 : take_turn pools B st1 true = (st2, true)).
  { apply (take_turn_pick pools B st1 true [b1] 0 b1 []); [done| |done|].
    - unfold st1. rewrite cursor_insert. destruct (decide (A = B)); [done|].
      apply initial_cursor.
    - simpl. set_solver. }
  assert (T3 : take_turn pools A st2 false = (st3, true)).
  { apply (take_turn_pick pools A st2 false [a1; a2; a3] 1 a2 [a3]); [done| |done|].
    - unfold st2. rewrite cursor_insert. destruct (decide (B = A)); [done|].
      unfold st1. rewrite cursor_insert. by destruct (decide (A = A)).
    - simpl. set_solver. }
  rewrite (rounds_step pools 3 [A; B] 2 st0 st2); [|simpl; lia|].
  2:{ rewrite (for_codes_continue _ _ _ _ _ _ _ _ T1) by (simpl; lia).
      by rewrite (for_codes_continue _ _ _ _ _ _ _ _ T2) by (simpl; lia). }
  rewrite (rounds_step pools 3 [A; B] 1 st2 st3); [|simpl; lia|].
  2:{ by rewrite (for_codes_break _ _ _ _ _ _ _ _ T3) by (simpl; lia). }
  by rewrite rounds_stop by (simpl; lia).
Qed.

Lemma round_robin_select_interleaves_witness :
  round_robin_run 3
    [("A", [charity_of "a1" "1"; charity_of "a2" "2"; charity_of "a3" "3"]);
     ("B", [charity_of "b1" "4"])] 3
  = Some [charity_of "a1" "1"; charity_of "b1" "4"; charity_of "a2" "2"]
  /\ round_robin_select
       [("A", [charity_of "a1" "1"; charity_of "a2" "2"; charity_of "a3" "3"]);
        ("B", [charity_of "b1" "4"])] 3
     = [charity_of "a1" "1"; charity_of "b1" "4"; charity_of "a2" "2"].
Proof.
  apply (round_robin_select_interleaves "A" "B"
           (charity_of "a1" "1") (charity_of "a2" "2") (charity_of "a3" "3")
           (charity_of "b1" "4")); [discriminate|].
  apply (bool_decide_unpack _). by vm_compute.
Defined.

(** ** The two operations *)

Section AppFacts.
Variable table : list CharityRow.t.
Variable sql_random : nat -> nat -> Z.
Variable py_random : Z -> nat -> nat -> nat.
Variable http_get : nat -> string -> HttpOutcome.
Variable EVERY_API_KEY : option string.

Local Abbreviation recommend :=
  (recommend_charities table sql_random py_random http_get EVERY_API_KEY).

(** C9. A request whose interest code is empty once trimmed, or is not a
    key of the mapping table, raises the client error (status 400) with the
    world untouched: no statement is run on the catalog, no request is
    sent, the selection is never reached. *)
Theorem recommend_rejects_unmapped_code
    (payload_generic_code payload_location : string) (w : World) :
  PyStr.upper (PyStr.strip payload_generic_code) = ""
  \/ PyDict.get GENERIC_TO_NTEE
       (PyStr.upper (PyStr.strip payload_generic_code)) = None ->
  exists detail,
    recommend payload_generic_code payload_location w
    = (Raise (HTTPException 400 detail), w)
    /\ sql_log (recommend payload_generic_code payload_location w).2
       = sql_log w.
Proof.
  intros H. unfold recommend_charities.
  destruct (String.eqb_spec (PyStr.upper (PyStr.strip payload_generic_code)) "")
    as [He|Hne].
  - by eexists.
  - destruct H as [H|H]; [done|]. rewrite H. by eexists.
Qed.
End AppFacts.

Lemma recommend_rejects_unmapped_code_witness :
  (exists detail,
     recommend_charities two_row_table flipping_random (fun _ _ _ => O)
       website_service (Some "key") "   " "CA" initial_world
     = (Raise (HTTPException 400 detail), initial_world)
     /\ sql_log (recommend_charities two_row_table flipping_random
                   (fun _ _ _ => O) website_service (Some "key")
                   "   " "CA" initial_world).2 = [])
  /\ (exists detail,
        recommend_charities two_row_table flipping_random (fun _ _ _ => O)
          website_service (Some "key") "zz" "CA" initial_world
        = (Raise (HTTPException 400 detail), initial_world)
        /\ sql_log (recommend_charities two_row_table flipping_random
                      (fun _ _ _ => O) website_service (Some "key")
                      "zz" "CA" initial_world).2 = []).
Proof.
  split.
  - apply (recommend_rejects_unmapped_code two_row_table flipping_random
             (fun _ _ _ => O) website_service (Some "key") "   " "CA"
             initial_world).
    left. reflexivity.
  - apply (recommend_rejects_unmapped_code two_row_table flipping_random
             (fun _ _ _ => O) website_service (Some "key") "zz" "CA"
             initial_world).
    right. reflexivity.
Defined.

(** ** The featured rotation *)

Section FeaturedFacts.
Variable py_random : Z -> nat -> nat -> nat.

Local Abbreviation featured :=
  (get_featured_charities two_row_table flipping_random py_random
     website_service (Some "key")).

(** What one call computes, from its pool and the enriched pool. *)
Lemma get_featured_charities_unfold
    (table : list CharityRow.t) (sql_random : nat -> nat -> Z)
    (http_get : nat -> string -> HttpOutcome) (key : option string)
    (today : Date) (w w1 w2 : World) (c : Charity.t)
    (pool pool' : list Charity.t) :
  get_daily_featured_pool table sql_random py_random 200 w = (Ok (c :: pool), w1) ->
  enrich_charities_with_every http_get key (c :: pool) w1 = (Ok pool', w2) ->
  get_featured_charities table sql_random py_random http_get key today w
  = (Ok {| date := today;
           count :=
             Z.of_nat (List.length
               (take 6 (shuffle py_random (date_seed today)
                  (List.filter
                     (fun charity => PyStr.truthy (Charity.websiteUrl charity))
                     pool'))));
           featured_charities :=
             take 6 (shuffle py_random (date_seed today)
               (List.filter
                  (fun charity => PyStr.truthy (Charity.websiteUrl charity))
                  pool')) |}, w2).
Proof.
  intros Hp He. unfold get_featured_charities, bind. rewrite Hp, He. done.
Qed.

(** C3 on the code: with a catalog of two charities, both enriched with a
    website, two calls on the same date return the two charities in
    opposite orders as soon as SQLite's [RANDOM()] orders the rows
    differently in the two calls; the seeded shuffle rearranges the pool by
    position, so the difference of order survives it. The counts agree. *)
Theorem featured_same_date_differs (today : Date) :
  exists f1 w1 f2 w2,
    featured today initial_world = (Ok f1, w1)
    /\ featured today w1 = (Ok f2, w2)
    /\ date f1 = date f2
    /\ count f1 = 2 /\ count f2 = 2
    /\ featured_charities f1 ≠ featured_charities f2.
Proof.
  set (a0 := normalized (catalog_row "1" "Alpha" "D20" "CA") "D20").
  set (b0 := normalized (catalog_row "2" "Beta" "D20" "CA") "D20").
  set (a := merge_detail {[ "websiteUrl" := Some "https://1" ]} a0).
  set (b := merge_detail {[ "websiteUrl" := Some "https://2" ]} b0).
  pose (wa := (get_daily_featured_pool two_row_table flipping_random
                 py_random 200 initial_world).2).
  pose (wb := (enrich_charities_with_every website_service (Some "key")
                 [a0; b0] wa).2).
  pose (wc := (get_daily_featured_pool two_row_table flipping_random
                 py_random 200 wb).2).
  pose (wd := (enrich_charities_with_every website_service (Some "key")
                 [b0; a0] wc).2).
  assert (Pa : get_daily_featured_pool two_row_table flipping_random
                 py_random 200 initial_world = (Ok [a0; b0], wa))
    by (vm_compute; reflexivity).
  assert (Ea : enrich_charities_with_every website_service (Some "key")
                 [a0; b0] wa = (Ok [a; b], wb))
    by (vm_compute; reflexivity).
  assert (Pb : get_daily_featured_pool two_row_table flipping_random
                 py_random 200 wb = (Ok [b0; a0], wc))
    by (vm_compute; reflexivity).
  assert (Eb : enrich_charities_with_every website_service (Some "key")
                 [b0; a0] wc = (Ok [b; a], wd))
    by (vm_compute; reflexivity).
  eexists _, wb, _, wd.
  split; [exact (get_featured_charities_unfold _ _ _ _ today _ _ _ _ _ _ Pa Ea)|].
  split; [exact (get_featured_charities_unfold _ _ _ _ today _ _ _ _ _ _ Pb Eb)|].
  cbn [date count featured_charities].
  change (List.filter _ [a; b]) with [a; b].
  change (List.filter _ [b; a]) with [b; a].
  rewrite !shuffle_pair.
  destruct (Nat.eqb (randbelow py_random (date_seed today) 2 1) 0);
    split_and!; try done; intros [= H _]; discriminate H.
Qed.
End FeaturedFacts.

(** ** The recommend operation *)

Lemma mapped_deciles_clean (code : string) (target : list string) :
  PyDict.get GENERIC_TO_NTEE code = Some target ->
  _normalize_deciles target = target.
Proof.
  intros H%dict_get_elem_of.
  assert (Hall : Forall (fun p => _normalize_deciles p.2 = p.2) GENERIC_TO_NTEE).
  { apply (bool_decide_unpack _). by vm_compute. }
  rewrite Forall_forall in Hall. apply (Hall _ H).
Qed.

Lemma upsert_elem_of {V} (f : V -> V) (v0 : V) (k : string)
    (d : PyDict.dict V) (k' : string) (v : V) :
  (k', v) ∈ PyDict.upsert f v0 k d ->
  (k', v) ∈ d \/ v = v0 \/ exists v1, (k, v1) ∈ d /\ v = f v1.
Proof.
  induction d as [|[k1 v1] d IH]; simpl.
  - intros [= _ ->]%list_elem_of_singleton. right. by left.
  - destruct (String.eqb_spec k1 k) as [->|Hne].
    + intros [[= -> ->]|Hin]%elem_of_cons.
      * right. right. exists v1. split; [apply list_elem_of_here|done].
      * left. by apply list_elem_of_further.
    + intros [[= -> ->]|Hin]%elem_of_cons.
      * left. apply list_elem_of_here.
      * destruct (IH Hin) as [H|[H|(v2 & H & ->)]].
        -- left. by apply list_elem_of_further.
        -- right. by left.
        -- right. right. exists v2. split; [by apply list_elem_of_further|done].
Qed.

(** Every candidate of the grouped pools is the normalized form of a row,
    filed under (and carrying) that row's category code. *)
Lemma group_charities_by_decile_candidates (rows : list CharityRow.t)
    (code : string) (l : list Charity.t) (c : Charity.t) :
  (code, l) ∈ group_charities_by_decile rows -> c ∈ l ->
  exists row d,
    row ∈ rows /\ CharityRow.ntee_code row = Some d
    /\ Charity.nteeCode c = Some d /\ Charity.ein c = CharityRow.ein row.
Proof.
  unfold group_charities_by_decile.
  set (Q := fun c : Charity.t => exists row d,
         row ∈ rows /\ CharityRow.ntee_code row = Some d
         /\ Charity.nteeCode c = Some d /\ Charity.ein c = CharityRow.ein row).
  assert (Hfold : forall rows' acc,
    rows' ⊆ rows ->
    (forall k l c, (k, l) ∈ acc -> c ∈ l -> Q c) ->
    forall k l c, (k, l) ∈ fold_left group_step rows' acc -> c ∈ l -> Q c).
  { induction rows' as [|row rows' IH]; intros acc Hsub Hacc; simpl; [done|].
    apply IH; [set_solver|]. intros k l0 c0. unfold group_step.
    assert (Hrow : row ∈ rows) by set_solver.
    unfold row_decile, PyStr.por.
    destruct (PyStr.truthy (CharityRow.ntee_code row)) eqn:E; [|by apply Hacc].
    apply truthy_Some in E as (d & Hd & Hne). rewrite Hd.
    rewrite (eqb_empty_false _ Hne).
    assert (Hn : Q (normalized row d)) by by exists row, d.
    intros [Hin|[->|(l1 & Hin & ->)]]%upsert_elem_of Hc.
    - by eapply Hacc.
    - by apply list_elem_of_singleton in Hc as ->.
    - apply elem_of_app in Hc as [Hc|Hc]; [by eapply Hacc|].
      by apply list_elem_of_singleton in Hc as ->. }
  intros Hin Hc. eapply (Hfold rows []); [done| |exact Hin|exact Hc].
  by intros k l0 c0 ?%elem_of_nil.
Qed.

(** Every selected entry is a candidate of the pools. *)
Lemma round_robin_select_candidates (pools : PyDict.dict (list Charity.t))
    (limit : Z) (c : Charity.t) :
  0 <= limit -> c ∈ round_robin_select pools limit ->
  exists code l, (code, l) ∈ pools /\ c ∈ l.
Proof.
  intros Hlimit Hc.
  destruct (round_robin_run_enough pools limit Hlimit)
    as (ids & st & _ & Heq & [_ Hsel _ _] & _).
  rewrite Heq in Hc. apply list_elem_of_lookup in Hc as [i Hi].
  destruct (Forall2_lookup_r _ _ _ _ _ Hsel Hi) as (id & _ & code & l & Hg & Hin & _).
  exists code, l. split; [by apply dict_get_elem_of|done].
Qed.

Lemma cache_mono_refl (w : World) : cache_mono w w.
Proof. by intros ein d. Qed.

Lemma cache_mono_trans (w1 w2 w3 : World) :
  cache_mono w1 w2 -> cache_mono w2 w3 -> cache_mono w1 w3.
Proof. intros H1 H2 ein d H. by apply H2, H1. Qed.

Section EnrichFacts.
Variable http_get : nat -> string -> HttpOutcome.
Variable EVERY_API_KEY : option string.

(** A lookup never drops a cached detail, and a detail it returns is in
    the cache afterwards. *)
Lemma fetch_every_nonprofit_detail_cache (ein : string) (w w' : World)
    (r : Result (option Detail)) :
  fetch_every_nonprofit_detail http_get EVERY_API_KEY ein w = (r, w') ->
  cache_mono w w'
  /\ forall d, r = Ok (Some d) -> every_cache w' !! ein = Some (Some d).
Proof.
  destruct (decide (ein = "")) as [->|Hne].
  { unfold fetch_every_nonprofit_detail, ret. simpl. intros [= <- <-].
    split; [apply cache_mono_refl|done]. }
  destruct (every_cache w !! ein) as [[d0|]|] eqn:Hc.
  { rewrite (fetch_hit _ _ _ _ _ Hne Hc). intros [= <- <-].
    split; [apply cache_mono_refl|]. by intros d [= <-]. }
  all: destruct (PyStr.truthy EVERY_API_KEY) eqn:Hk.
  all: try (rewrite (fetch_miss _ _ _ _ Hne Hk) by (by rewrite Hc);
            intros [= <- <-]; split;
            [intros ein' d' H'; simpl; destruct (decide (ein = ein')) as [<-|];
               [congruence|by rewrite lookup_insert_ne]
            |intros d Hd; simpl; rewrite lookup_insert_eq; congruence]).
  all: unfold fetch_every_nonprofit_detail;
    rewrite (eqb_empty_false _ Hne); unfold bind, cache_get, get_api_key;
    rewrite Hc, Hk; unfold raise; simpl; intros [= <- <-];
    split; [apply cache_mono_refl|done].
Qed.

Lemma enrich_charity_enriched (c c' : Charity.t) (w w' : World) :
  enrich_charity http_get EVERY_API_KEY c w = (Ok c', w') ->
  cache_mono w w' /\ enriched_in w' c c'.
Proof.
  unfold enrich_charity.
  destruct (PyStr.truthy (Charity.ein c)) eqn:E; simpl.
  2:{ intros [= <- <-]. split; [apply cache_mono_refl|by left]. }
  apply truthy_Some in E as (ein & He & Hne). rewrite He. simpl.
  unfold bind.
  destruct (fetch_every_nonprofit_detail http_get EVERY_API_KEY ein w)
    as [r w1] eqn:Hf.
  destruct (fetch_every_nonprofit_detail_cache _ _ _ _ Hf) as [Hmono Hd].
  destruct r as [[d|]|e]; [| |done].
  - destruct (decide (d = ∅)); intros [= <- <-]; (split; [done|]);
      [by left|]. right. exists ein, d. split_and!; [done| |done]. by apply Hd.
  - intros [= <- <-]. split; [done|by left].
Qed.

Lemma enriched_in_mono (w w' : World) (c c' : Charity.t) :
  cache_mono w w' -> enriched_in w c c' -> enriched_in w' c c'.
Proof.
  intros Hm [->|(ein & d & He & Hc & ->)]; [by left|].
  right. exists ein, d. split_and!; [done|by apply Hm|done].
Qed.

Lemma enrich_charities_enriched (l l' : list Charity.t) (w w' : World) :
  enrich_charities_with_every http_get EVERY_API_KEY l w = (Ok l', w') ->
  cache_mono w w' /\ Forall2 (enriched_in w') l l'.
Proof.
  unfold enrich_charities_with_every. revert w l' w'.
  induction l as [|c l IH]; intros w l' w'; simpl.
  { intros [= <- <-]. split; [apply cache_mono_refl|constructor]. }
  unfold bind at 1.
  destruct (enrich_charity http_get EVERY_API_KEY c w) as [[c'|e] w1] eqn:Hc;
    [|done].
  apply enrich_charity_enriched in Hc as [Hm1 He1].
  unfold bind at 1.
  destruct (for_each (enrich_charity http_get EVERY_API_KEY) l w1)
    as [[l1|e] w2] eqn:Hl; [|done].
  apply IH in Hl as [Hm2 He2]. intros [= <- <-].
  split; [by eapply cache_mono_trans|].
  constructor; [by eapply enriched_in_mono|done].
Qed.

(** The category code after a merge: the detail's non-empty [nteeCode]
    when it has one, the old code otherwise. *)
Lemma merge_detail_nteeCode (d : Detail) (c : Charity.t) :
  (exists v, detail_get d "nteeCode" = Some v /\ v ≠ ""
             /\ Charity.nteeCode (merge_detail d c) = Some v)
  \/ Charity.nteeCode (merge_detail d c) = Charity.nteeCode c.
Proof.
  simpl. unfold PyStr.por.
  destruct (PyStr.truthy (detail_get d "nteeCode")) eqn:E.
  - left. rewrite E. apply truthy_Some in E as (v & -> & Hv). by exists v.
  - right. by destruct (PyStr.truthy (Charity.nteeCode c)).
Qed.
End EnrichFacts.

Section RecommendFacts.
Variable table : list CharityRow.t.
Variable sql_random : nat -> nat -> Z.
Variable py_random : Z -> nat -> nat -> nat.
Variable http_get : nat -> string -> HttpOutcome.
Variable EVERY_API_KEY : option string.

(** The pool returns, and its rows are in the cleaned deciles. *)
Lemma fetch_random_pool_rows (deciles : list string) (state : option string)
    (pool_size : Z) (seed : option Z) (w : World) :
  exists rows w',
    fetch_random_pool_for_deciles table sql_random py_random
      deciles state pool_size seed w = (Ok rows, w')
    /\ forall row, row ∈ rows ->
         exists c, CharityRow.ntee_code row = Some c
                   /\ c ∈ _normalize_deciles deciles.
Proof.
  unfold fetch_random_pool_for_deciles.
  destruct (pool_size <=? 0).
  { exists [], w. split; [done|]. by intros row ?%elem_of_nil. }
  destruct (fetch_by_deciles_returns table sql_random deciles state
              (Z.max (pool_size * 3) pool_size) w)
    as (fetched & w' & Hf & _ & Hrows & _).
  unfold bind. rewrite Hf. eexists _, w'. split; [done|].
  intros row (i & Hi & _)%elem_of_take.
  apply list_elem_of_lookup_2 in Hi.
  destruct seed as [s|]; [rewrite shuffle_perm in Hi|]; by apply Hrows in Hi as [_ ?].
Qed.

(** C7 as the code has it. In every response of the recommend operation,
    [ntee_codes] is the list mapped from the interest code, and each
    returned entry's category code either belongs to that list or is the
    non-empty [nteeCode] of the Every.org detail cached for the entry's
    EIN, which the enrichment wrote over the catalog's code. *)
Theorem recommend_categories_mapped_or_recoded
    (payload_generic_code payload_location : string) (w w' : World)
    (resp : CharityResponse) :
  recommend_charities table sql_random py_random http_get EVERY_API_KEY
    payload_generic_code payload_location w = (Ok resp, w') ->
  PyDict.get GENERIC_TO_NTEE (PyStr.upper (PyStr.strip payload_generic_code))
  = Some (ntee_codes resp)
  /\ Forall (fun c => category_in (ntee_codes resp) c \/ recoded_in w' c)
       (charities resp).
Proof.
  unfold recommend_charities.
  destruct (String.eqb (PyStr.upper (PyStr.strip payload_generic_code)) "");
    [done|].
  destruct (PyDict.get GENERIC_TO_NTEE
              (PyStr.upper (PyStr.strip payload_generic_code)))
    as [target|] eqn:Hget; [|done].
  destruct target as [|t0 target0] eqn:Ht; [done|]. rewrite <- Ht in *.
  destruct (fetch_random_pool_rows target
              (if String.eqb (normalize_state (PyStr.strip payload_location)) "any"
               then None
               else Some (normalize_state (PyStr.strip payload_location)))
              (MAX_CHARITIES * 4) None w) as (pool & w1 & Hpool & Hrows).
  rewrite (mapped_deciles_clean _ _ Hget) in Hrows.
  unfold bind at 1. rewrite Hpool.
  destruct pool as [|row0 pool0] eqn:Hp; [done|]. rewrite <- Hp in *.
  assert (Hsel : Forall (category_in target)
                   (round_robin_select (group_charities_by_decile pool)
                      MAX_CHARITIES)).
  { apply Forall_forall. intros c Hc.
    apply round_robin_select_candidates in Hc as (code & l & Hin & Hcl);
      [|done].
    destruct (group_charities_by_decile_candidates _ _ _ _ Hin Hcl)
      as (row & d & Hrow & Hd & Hcd & _).
    apply Hrows in Hrow as (d' & Hd' & Hin').
    exists d. split; [congruence|done]. }
  destruct (round_robin_select (group_charities_by_decile pool) MAX_CHARITIES)
    as [|s0 sel0] eqn:Hs; [done|]. rewrite <- Hs in *.
  unfold bind.
  destruct (enrich_charities_with_every http_get EVERY_API_KEY
              (round_robin_select (group_charities_by_decile pool) MAX_CHARITIES)
              w1) as [[sel'|e] w2] eqn:He; [|done].
  intros [= <- <-]. simpl. split; [done|].
  apply enrich_charities_enriched in He as [_ He].
  revert Hsel. clear -He. induction He as [|c c' l l' Hc _ IH]; intros Hsel;
    [constructor|].
  apply Forall_cons in Hsel as [Hcat Hsel]. constructor; [|by apply IH].
  destruct Hc as [->|(ein & d & Hein & Hcache & ->)]; [by left|].
  destruct (merge_detail_nteeCode d c) as [(v & Hv & Hne & Hn)|Hn].
  - right. by exists ein, d, v.
  - left. destruct Hcat as (code & Hin & Hcode). exists code.
    split; [done|congruence].
Qed.
End RecommendFacts.

Lemma recommend_categories_mapped_or_recoded_witness :
  exists resp w',
    recommend_charities two_row_table flipping_random (fun _ _ _ => O)
      recoding_service (Some "key") "d0" "ca" initial_world = (Ok resp, w')
    /\ PyDict.get GENERIC_TO_NTEE "D0" = Some (ntee_codes resp)
    /\ Forall (fun c => category_in (ntee_codes resp) c \/ recoded_in w' c)
         (charities resp).
Proof.
  eexists _, _. split; [vm_compute; reflexivity|].
  apply (recommend_categories_mapped_or_recoded two_row_table flipping_random
           (fun _ _ _ => O) recoding_service (Some "key") "d0" "ca"
           initial_world).
  vm_compute. reflexivity.
Defined.

(** C7 as stated fails: Every.org's answer carries its own [nteeCode], the
    enrichment writes it over the catalog's code, and the response for
    interest code [D0] then holds an entry outside the categories of [D0]. *)
Lemma recommend_category_outside_mapping :
  exists resp w',
    recommend_charities two_row_table flipping_random (fun _ _ _ => O)
      recoding_service (Some "key") "D0" "CA" initial_world = (Ok resp, w')
    /\ ntee_codes resp = ["D20"; "D40"; "D60"; "D61"]
    /\ ~ Forall (category_in (ntee_codes resp)) (charities resp).
Proof.
  eexists _, _. split; [vm_compute; reflexivity|]. split; [reflexivity|].
  intros H. apply Forall_cons in H as [(code & Hin & Hcode) _].
  simpl in Hcode. injection Hcode as <-.
  apply list_elem_of_In in Hin. simpl in Hin.
  repeat destruct Hin as [Hin|Hin]; try discriminate Hin. done.
Qed.

Lemma fetch_by_deciles_region_fallback_witness :
  fetch_by_deciles two_row_table flipping_random ["d20"] (Some "zz") 10
    initial_world
  = (Ok [catalog_row "2" "Beta" "D20" "CA"; catalog_row "1" "Alpha" "D20" "CA"],
     {| every_cache := ∅; http_log := [];
        sql_log :=
          [ {| q_deciles := ["D20"]; q_state := Some "ZZ"; q_limit := 10 |};
            {| q_deciles := ["D20"]; q_state := None; q_limit := 10 |} ] |})
  /\ fetch_by_deciles two_row_table flipping_random ["d20"] (Some "ca") 10
       initial_world
     = (Ok two_row_table,
        {| every_cache := ∅; http_log := [];
           sql_log :=
             [ {| q_deciles := ["D20"]; q_state := Some "CA"; q_limit := 10 |} ] |}).
Proof.
  split.
  - refine (eq_trans
      (proj1 (fetch_by_deciles_region_fallback two_row_table flipping_random
                ["d20"] (Some "zz") 10 "ZZ" initial_world _ _) _) _).
    + discriminate.
    + reflexivity.
    + reflexivity.
    + reflexivity.
  - refine (eq_trans
      (proj2 (fetch_by_deciles_region_fallback two_row_table flipping_random
                ["d20"] (Some "ca") 10 "CA" initial_world _ _) _) _).
    + discriminate.
    + reflexivity.
    + discriminate.
    + reflexivity.
Defined.

Lemma fetch_random_pool_shuffles_then_truncates_witness :
  exists fetched w',
    fetch_by_deciles two_row_table flipping_random ["D20"] None
      (Z.max (1 * 3) 1) initial_world = (Ok fetched, w')
    /\ Z.of_nat (List.length fetched) <= Z.max (1 * 3) 1
    /\ fetch_random_pool_for_deciles two_row_table flipping_random
         (fun _ _ _ => O) ["D20"] None 1 (Some 20240101) initial_world
       = (Ok (take (Z.to_nat 1) (shuffle (fun _ _ _ => O) 20240101 fetched)), w')
    /\ (forall s, shuffle (fun _ _ _ => O) s fetched ≡ₚ fetched).
Proof.
  apply (fetch_random_pool_shuffles_then_truncates two_row_table flipping_random
           (fun _ _ _ => O) ["D20"] None 1 (Some 20240101) initial_world).
  lia.
Defined.

(** * Further properties of the code *)

(** ** Text: trimming and letter case *)

Ltac by_ascii_cases c :=
  destruct c as [[] [] [] [] [] [] [] []]; vm_compute; try reflexivity;
  try discriminate; auto.

Lemma upper_char_idem (c : ascii) :
  PyStr.upper_char (PyStr.upper_char c) = PyStr.upper_char c.
Proof. by_ascii_cases c. Qed.

Lemma is_space_upper_char (c : ascii) :
  PyStr.is_space (PyStr.upper_char c) = PyStr.is_space c.
Proof. by_ascii_cases c. Qed.

Lemma letter_not_space (c : ascii) :
  PyStr.is_upper_char c || PyStr.is_lower_char c = true ->
  PyStr.is_space c = false.
Proof. by_ascii_cases c. Qed.

Lemma letter_upper_char (c : ascii) :
  PyStr.is_upper_char c || PyStr.is_lower_char c = true ->
  PyStr.is_upper_char (PyStr.upper_char c) = true.
Proof. by_ascii_cases c. Qed.

Lemma upper_char_fixed (c : ascii) :
  PyStr.is_upper_char c = true -> PyStr.upper_char c = c.
Proof. by_ascii_cases c. Qed.

Lemma upper_idem (s : string) : PyStr.upper (PyStr.upper s) = PyStr.upper s.
Proof.
  unfold PyStr.upper. induction s as [|c s IH]; simpl; [done|].
  by rewrite upper_char_idem, IH.
Qed.

Lemma upper_empty (s : string) : PyStr.upper s = "" <-> s = "".
Proof. by destruct s. Qed.

Lemma lstrip_upper (s : string) :
  PyStr.lstrip (PyStr.upper s) = PyStr.upper (PyStr.lstrip s).
Proof.
  unfold PyStr.upper. induction s as [|c s IH]; simpl; [done|].
  rewrite is_space_upper_char. by destruct (PyStr.is_space c).
Qed.

Lemma rstrip_upper (s : string) :
  PyStr.rstrip (PyStr.upper s) = PyStr.upper (PyStr.rstrip s).
Proof.
  unfold PyStr.upper. induction s as [|c s IH]; simpl; [done|].
  rewrite IH, is_space_upper_char.
  destruct (PyStr.rstrip s); simpl; [by destruct (PyStr.is_space c)|done].
Qed.

Lemma strip_upper (s : string) :
  PyStr.strip (PyStr.upper s) = PyStr.upper (PyStr.strip s).
Proof. unfold PyStr.strip. by rewrite lstrip_upper, rstrip_upper. Qed.

Lemma rstrip_cons_keep (c : ascii) (s : string) :
  PyStr.is_space c = false ->
  PyStr.rstrip (String c s) = String c (PyStr.rstrip s).
Proof. intros H. simpl. rewrite H. by destruct (PyStr.rstrip s). Qed.

Lemma rstrip_cons (c : ascii) (s : string) :
  PyStr.rstrip (String c s)
  = match PyStr.rstrip s with
    | EmptyString =>
        if PyStr.is_space c then EmptyString else String c EmptyString
    | r => String c r
    end.
Proof. reflexivity. Qed.

Lemma rstrip_idem (s : string) :
  PyStr.rstrip (PyStr.rstrip s) = PyStr.rstrip s.
Proof.
  induction s as [|c s IH]; [done|]. rewrite rstrip_cons.
  destruct (PyStr.rstrip s) as [|c' r] eqn:E.
  - destruct (PyStr.is_space c) eqn:Hc; [done|]. rewrite rstrip_cons.
    simpl. by rewrite Hc.
  - rewrite rstrip_cons. by rewrite IH.
Qed.

Lemma lstrip_head (s : string) :
  PyStr.lstrip s = ""
  \/ exists c s', PyStr.lstrip s = String c s' /\ PyStr.is_space c = false.
Proof.
  induction s as [|c s IH]; simpl; [by left|].
  destruct (PyStr.is_space c) eqn:Hc; [done|]. right. by exists c, s.
Qed.

Lemma strip_idem (s : string) : PyStr.strip (PyStr.strip s) = PyStr.strip s.
Proof.
  unfold PyStr.strip.
  destruct (lstrip_head s) as [->|(c & s' & -> & Hc)]; [done|].
  rewrite (rstrip_cons_keep _ _ Hc). simpl. rewrite Hc.
  rewrite (rstrip_cons_keep _ _ Hc). by rewrite rstrip_idem.
Qed.

(** A string of letters is left alone by [strip]. *)
Lemma strip_letters (s : string) :
  PyStr.all_chars (fun c => PyStr.is_upper_char c || PyStr.is_lower_char c) s
  = true ->
  PyStr.strip s = s.
Proof.
  intros H. assert (Hr : PyStr.rstrip s = s).
  { induction s as [|c s IH]; [done|]. simpl in H.
    apply andb_true_iff in H as [Hc Hs].
    rewrite (rstrip_cons_keep _ _ (letter_not_space _ Hc)). by rewrite IH. }
  unfold PyStr.strip. destruct s as [|c s]; [done|]. simpl in H.
  apply andb_true_iff in H as [Hc Hs]. simpl PyStr.lstrip.
  by rewrite (letter_not_space _ Hc).
Qed.

Lemma upper_length (s : string) :
  String.length (PyStr.upper s) = String.length s.
Proof. unfold PyStr.upper. induction s as [|c s IH]; simpl; by rewrite ?IH. Qed.


Lemma upper_letters (s : string) :
  PyStr.all_chars (fun c => PyStr.is_upper_char c || PyStr.is_lower_char c) s
  = true ->
  PyStr.all_chars PyStr.is_upper_char (PyStr.upper s) = true.
Proof.
  unfold PyStr.upper. induction s as [|c s IH]; simpl; [done|].
  intros [Hc Hs]%andb_true_iff. by rewrite (letter_upper_char _ Hc), IH.
Qed.

Lemma upper_capitals (s : string) :
  PyStr.all_chars PyStr.is_upper_char s = true -> PyStr.upper s = s.
Proof.
  unfold PyStr.upper. induction s as [|c s IH]; simpl; [done|].
  intros [Hc Hs]%andb_true_iff. by rewrite (upper_char_fixed _ Hc), IH.
Qed.

Lemma capitals_letters (s : string) :
  PyStr.all_chars PyStr.is_upper_char s = true ->
  PyStr.all_chars (fun c => PyStr.is_upper_char c || PyStr.is_lower_char c) s
  = true.
Proof.
  induction s as [|c s IH]; simpl; [done|].
  intros [Hc Hs]%andb_true_iff. by rewrite Hc, IH.
Qed.

Lemma state_code_facts (s : string) :
  is_state_code s = true ->
  String.length s = 2%nat
  /\ PyStr.strip s = s /\ PyStr.upper s = s /\ PyStr.isalpha s = true.
Proof.
  unfold is_state_code. intros [Hl%Nat.eqb_eq Hc]%andb_true_iff.
  split_and!; [done| |by apply upper_capitals|].
  - by apply strip_letters, capitals_letters.
  - destruct s as [|c s]; [done|]. by apply capitals_letters.
Qed.

(** ** [normalize_state] and the gateway's [_normalize_state] *)

(** X1. [normalize_state] only ever returns ["any"] or a code of two capital
    letters, whatever the survey sends. *)
Theorem normalize_state_range (location : string) :
  normalize_state location = "any"
  \/ is_state_code (normalize_state location) = true.
Proof.
  unfold normalize_state.
  destruct (String.eqb (PyStr.strip location) ""); [by left|].
  destruct (String.eqb (PyStr.lower (PyStr.strip location)) "any"); [by left|].
  destruct (Z.eqb_spec (PyStr.len (PyStr.strip location)) 2) as [Hl|];
    [|by left].
  destruct (PyStr.isalpha (PyStr.strip location)) eqn:Ha; [|by left].
  right. simpl. unfold is_state_code. unfold PyStr.len in Hl.
  rewrite upper_length. apply andb_true_iff. split; [apply Nat.eqb_eq; lia|].
  apply upper_letters. by destruct (PyStr.strip location).
Qed.



(** X3. The region [recommend_charities] hands to the catalog ([None] for
    ["any"], the state code otherwise) passes through the gateway's own
    [_normalize_state] unchanged: the two normalizations agree. *)
Theorem gateway_keeps_state_code (location : string) :
  let state_code := normalize_state location in
  let state := if String.eqb state_code "any" then None else Some state_code in
  _normalize_state state = state.
Proof.
  intros state_code state. subst state state_code.
  destruct (normalize_state_range location) as [->|H]; [done|].
  destruct (state_code_facts _ H) as (Hl & Hs & Hu & _).
  assert (Hlen : forall t, String.length t ≠ 2%nat ->
                           String.eqb (normalize_state location) t = false).
  { intros t Ht. apply String.eqb_neq. intros He. by rewrite He in Hl. }
  rewrite (Hlen "any") by done. simpl.
  rewrite (Hlen "") by done. rewrite Hs, Hu.
  by rewrite (Hlen "") , (Hlen "ANY") by done.
Qed.

(** ** [_normalize_deciles] *)

Lemma cleaned_decile_fixed (d : string) :
  PyStr.strip d ≠ "" ->
  PyStr.strip (PyStr.upper (PyStr.strip d)) ≠ ""
  /\ PyStr.upper (PyStr.strip (PyStr.upper (PyStr.strip d)))
     = PyStr.upper (PyStr.strip d).
Proof.
  intros Hne. rewrite strip_upper, strip_idem, upper_idem.
  split; [|done]. by rewrite upper_empty.
Qed.

Lemma normalize_deciles_fixed (l : list string) :
  Forall (fun t => PyStr.strip t ≠ "" /\ PyStr.upper (PyStr.strip t) = t) l ->
  _normalize_deciles l = l.
Proof.
  unfold _normalize_deciles. induction 1 as [|t l [Hne Heq] _ IH]; [done|].
  rewrite filter_cons. destruct (decide (PyStr.strip t ≠ "")); [|done].
  simpl. by rewrite Heq, IH.
Qed.

(** X4. [_normalize_deciles] is idempotent, and what it returns holds no
    empty code: each code is trimmed and in capitals, so cleaning it again
    changes nothing. *)
Theorem normalize_deciles_idempotent (deciles : list string) :
  _normalize_deciles (_normalize_deciles deciles) = _normalize_deciles deciles
  /\ Forall (fun d => d ≠ "" /\ PyStr.strip d = d /\ PyStr.upper d = d)
       (_normalize_deciles deciles).
Proof.
  assert (H : Forall (fun t => PyStr.strip t ≠ ""
                               /\ PyStr.upper (PyStr.strip t) = t)
                (_normalize_deciles deciles)).
  { unfold _normalize_deciles. induction deciles as [|d l IH]; [constructor|].
    rewrite filter_cons. destruct (decide (PyStr.strip d ≠ "")); [|done].
    simpl. constructor; [by apply cleaned_decile_fixed|done]. }
  split; [by apply normalize_deciles_fixed|].
  eapply Forall_impl; [exact H|]. intros t [Hne Heq]. simpl.
  assert (Hs : PyStr.strip t = t).
  { rewrite <- Heq at 2. rewrite <- Heq at 1.
    by rewrite strip_upper, strip_idem. }
  split_and!; [congruence|done|]. rewrite <- Heq. by rewrite upper_idem.
Qed.

(** ** The catalog gateway, beyond the fallback *)

Section GatewayFacts.
Variable table : list CharityRow.t.
Variable sql_random : nat -> nat -> Z.
Variable py_random : Z -> nat -> nat -> nat.

Lemma sql_limit_nonempty {A} (limit : Z) (rows : list A) :
  limit ≠ 0 -> rows ≠ [] -> sql_limit limit rows ≠ [].
Proof.
  intros Hl Hr. unfold sql_limit. destruct (Z.ltb_spec limit 0); [done|].
  destruct rows as [|r rows]; [done|].
  destruct (Z.to_nat limit) eqn:E; [lia|done].
Qed.

Lemma order_by_random_nonempty (n : nat) (rows : list CharityRow.t) :
  rows ≠ [] -> order_by_random sql_random n rows ≠ [].
Proof.
  intros Hr He. pose proof (order_by_random_perm sql_random n rows) as Hp.
  rewrite He in Hp. by apply Permutation_nil_l in Hp.
Qed.

(** A statement finds a row as soon as the table holds a matching one and
    the limit is not zero. *)
Lemma run_query_nonempty (n : nat) (q : SqlQuery) (row : CharityRow.t) :
  row ∈ table -> where_clause q row = true -> q_limit q ≠ 0 ->
  run_query table sql_random n q ≠ [].
Proof.
  intros Hin Hw Hl. unfold run_query.
  apply sql_limit_nonempty; [done|]. apply order_by_random_nonempty.
  intros He. assert (H : In row (List.filter (where_clause q) table)).
  { apply filter_In. split; [by apply list_elem_of_In|done]. }
  by rewrite He in H.
Qed.


(** X6. When a region is asked for and the table holds a row of one of the
    cleaned codes in that region, every row [fetch_by_deciles] returns is of
    that region, and there is at least one (the limit not being zero). *)
Theorem fetch_by_deciles_stays_in_region
    (deciles : list string) (state : option string) (limit : Z)
    (region : string) (row : CharityRow.t) (c : string) (w : World) :
  _normalize_state state = Some region ->
  row ∈ table ->
  CharityRow.ntee_code row = Some c -> c ∈ _normalize_deciles deciles ->
  CharityRow.state row = Some region ->
  limit ≠ 0 ->
  exists rows w',
    fetch_by_deciles table sql_random deciles state limit w = (Ok rows, w')
    /\ rows ≠ []
    /\ Forall (fun r => CharityRow.state r = Some region) rows.
Proof.
  intros Hs Hin Hc Hcd Hst Hl. unfold fetch_by_deciles.
  destruct (_normalize_deciles deciles) as [|d ds] eqn:Hd;
    [by apply elem_of_nil in Hcd|].
  rewrite Hs. unfold bind, _execute_query, ret; simpl.
  set (q := {| q_deciles := d :: ds; q_state := Some region;
               q_limit := limit |}).
  assert (Hw : where_clause q row = true).
  { unfold where_clause. simpl. rewrite Hc, Hst.
    by rewrite !bool_decide_eq_true_2. }
  pose proof (run_query_nonempty (List.length (sql_log w)) q row Hin Hw Hl)
    as Hne.
  destruct (run_query table sql_random (List.length (sql_log w)) q)
    as [|r rs] eqn:E; [done|].
  eexists _, _. split; [done|]. rewrite rows_to_charities_id.
  split; [done|]. rewrite <- E. apply Forall_forall. intros r' Hr'.
  apply run_query_where in Hr' as [_ Hr']. unfold where_clause in Hr'.
  apply andb_true_iff in Hr' as [_ Hr']. simpl in Hr'.
  by apply bool_decide_eq_true in Hr'.
Qed.

End GatewayFacts.

Lemma fetch_by_deciles_stays_in_region_witness :
  exists rows w',
    fetch_by_deciles two_row_table flipping_random ["d20"] (Some "ca") 10
      initial_world = (Ok rows, w')
    /\ rows ≠ []
    /\ Forall (fun r => CharityRow.state r = Some "CA") rows.
Proof.
  apply (fetch_by_deciles_stays_in_region two_row_table flipping_random
           ["d20"] (Some "ca") 10 "CA" (catalog_row "1" "Alpha" "D20" "CA")
           "D20" initial_world).
  - reflexivity.
  - apply list_elem_of_here.
  - reflexivity.
  - apply (bool_decide_unpack _). by vm_compute.
  - reflexivity.
  - discriminate.
Defined.

(** ** [fetch_by_major] *)

Section MajorFacts.
Variable table : list CharityRow.t.
Variable sql_random : nat -> nat -> Z.

Lemma run_major_query_where (n : nat) (q : MajorQuery) (row : CharityRow.t) :
  row ∈ run_major_query table sql_random n q ->
  row ∈ table /\ where_major q row = true.
Proof.
  unfold run_major_query. intros H%sql_limit_subset.
  rewrite order_by_random_perm in H.
  apply list_elem_of_In, filter_In in H as [H1 H2].
  by rewrite <- list_elem_of_In in H1.
Qed.

(** X8. [fetch_by_major] applies the same region fallback as
    [fetch_by_deciles]: with a region in force it runs the filtered
    statement first; if that finds no row it runs the statement again
    without the region and returns its rows, and if it finds rows it returns
    them and runs nothing else. *)
Theorem fetch_by_major_region_fallback
    (major_letter : string) (state : option string) (limit : Z)
    (region : string) (n : nat) :
  PyStr.upper (PyStr.strip major_letter) ≠ "" ->
  _normalize_state state = Some region ->
  let major := PyStr.upper (PyStr.strip major_letter) in
  let filtered :=
    {| mq_major := major; mq_state := Some region; mq_limit := limit |} in
  let unfiltered :=
    {| mq_major := major; mq_state := None; mq_limit := limit |} in
  (run_major_query table sql_random n filtered = [] ->
   fetch_by_major table sql_random major_letter state limit n
   = (run_major_query table sql_random (S n) unfiltered,
      [filtered; unfiltered]))
  /\
  (run_major_query table sql_random n filtered ≠ [] ->
   fetch_by_major table sql_random major_letter state limit n
   = (run_major_query table sql_random n filtered, [filtered])).
Proof.
  intros Hm Hs major filtered unfiltered. unfold fetch_by_major.
  assert (Hne : major_letter ≠ "") by (by intros ->).
  rewrite (eqb_empty_false _ Hne), (eqb_empty_false _ Hm), Hs.
  fold major. fold filtered. fold unfiltered. split; intros Hq.
  - rewrite Hq. by rewrite rows_to_charities_id.
  - destruct (run_major_query table sql_random n filtered) as [|r rs] eqn:E;
      [done|]. by rewrite rows_to_charities_id.
Qed.

(** X9. [fetch_by_major] runs no statement and returns no row for a major
    letter that is empty once trimmed; otherwise it runs one or two
    statements and returns at most [limit] rows (for a limit that is not
    negative), each a row of the table whose [ntee_major] is the trimmed
    letter in capitals. *)
Theorem fetch_by_major_contract
    (major_letter : string) (state : option string) (limit : Z) (n : nat) :
  let major := PyStr.upper (PyStr.strip major_letter) in
  let result := fetch_by_major table sql_random major_letter state limit n in
  (major = "" -> result = ([], []))
  /\ (major ≠ "" -> (1 <= List.length result.2 <= 2)%nat)
  /\ (0 <= limit -> Z.of_nat (List.length result.1) <= limit)
  /\ Forall (fun row => row ∈ table /\ CharityRow.ntee_major row = Some major)
       result.1.
Proof.
  intros major result. subst result. unfold fetch_by_major. fold major.
  destruct (String.eqb_spec major_letter "") as [He|Hne].
  { subst major major_letter.
    split_and!; first [done | simpl; lia | constructor]. }
  destruct (String.eqb_spec major "") as [He|Hm].
  { split_and!; first [done | simpl; lia | constructor]. }
  assert (Hrows : forall k st,
    Forall (fun row => row ∈ table /\ CharityRow.ntee_major row = Some major)
      (run_major_query table sql_random k
         {| mq_major := major; mq_state := st; mq_limit := limit |})).
  { intros k st. apply Forall_forall. intros row [Ht Hw]%run_major_query_where.
    split; [done|]. unfold where_major in Hw.
    apply andb_true_iff in Hw as [Hw _]. by apply bool_decide_eq_true in Hw. }
  assert (Hlen : forall k st, 0 <= limit ->
    Z.of_nat (List.length (run_major_query table sql_random k
      {| mq_major := major; mq_state := st; mq_limit := limit |})) <= limit).
  { intros k st H0. unfold run_major_query. by apply sql_limit_length. }
  destruct (_normalize_state state) as [region|].
  - destruct (run_major_query table sql_random n
                {| mq_major := major; mq_state := Some region;
                   mq_limit := limit |}) as [|r rs] eqn:E.
    + rewrite rows_to_charities_id. simpl.
      split_and!; [done|lia|apply Hlen|apply Hrows].
    + rewrite rows_to_charities_id, <- E. simpl.
      split_and!; [done|lia|apply Hlen|apply Hrows].
  - rewrite rows_to_charities_id. simpl.
    split_and!; [done|lia|apply Hlen|apply Hrows].
Qed.
End MajorFacts.

Lemma fetch_by_major_region_fallback_witness :
  fetch_by_major two_row_table flipping_random " d " (Some "zz") 10 0
  = ([catalog_row "2" "Beta" "D20" "CA"; catalog_row "1" "Alpha" "D20" "CA"],
     [ {| mq_major := "D"; mq_state := Some "ZZ"; mq_limit := 10 |};
       {| mq_major := "D"; mq_state := None; mq_limit := 10 |} ])
  /\ fetch_by_major two_row_table flipping_random " d " (Some "ca") 10 0
     = (two_row_table,
        [ {| mq_major := "D"; mq_state := Some "CA"; mq_limit := 10 |} ]).
Proof.
  split.
  - refine (eq_trans
      (proj1 (fetch_by_major_region_fallback two_row_table flipping_random
                " d " (Some "zz") 10 "ZZ" 0 _ _) _) _).
    + discriminate.
    + reflexivity.
    + reflexivity.
    + reflexivity.
  - refine (eq_trans
      (proj2 (fetch_by_major_region_fallback two_row_table flipping_random
                " d " (Some "ca") 10 "CA" 0 _ _) _) _).
    + discriminate.
    + reflexivity.
    + discriminate.
    + reflexivity.
Defined.

(** ** [group_charities_by_decile] *)

Lemma upsert_get {V} (f : V -> V) (v0 : V) (k : string) (d : PyDict.dict V)
    (k' : string) :
  PyDict.get (PyDict.upsert f v0 k d) k'
  = if String.eqb k k'
    then Some (match PyDict.get d k with Some v => f v | None => v0 end)
    else PyDict.get d k'.
Proof.
  induction d as [|[k1 v1] d IH]; simpl.
  - by destruct (String.eqb k k').
  - destruct (String.eqb_spec k1 k) as [->|Hne]; simpl.
    + by destruct (String.eqb k k').
    + rewrite IH. destruct (String.eqb_spec k k') as [Heq|Hne']; [|done].
      rewrite <- Heq. by rewrite (proj2 (String.eqb_neq k1 k) Hne).
Qed.

Lemma upsert_keys {V} (f : V -> V) (v0 : V) (k : string) (d : PyDict.dict V) :
  PyDict.keys (PyDict.upsert f v0 k d)
  = if bool_decide (k ∈ PyDict.keys d) then PyDict.keys d
    else (PyDict.keys d ++ [k])%list.
Proof.
  unfold PyDict.keys. induction d as [|[k1 v1] d IH]; csimpl; [done|].
  destruct (String.eqb_spec k1 k) as [->|Hne]; csimpl.
  - rewrite bool_decide_eq_true_2; [done|apply list_elem_of_here].
  - rewrite IH. destruct (decide (k ∈ d.*1)) as [Hin|Hnin].
    + rewrite !bool_decide_eq_true_2; [done|by apply list_elem_of_further|done].
    + rewrite !bool_decide_eq_false_2; [done| |done].
      intros [->|?]%elem_of_cons; done.
Qed.

Lemma upsert_nonempty {A} (x : A) (k : string) (d : PyDict.dict (list A)) :
  Forall (fun p => p.2 ≠ []) d ->
  Forall (fun p => p.2 ≠ [])
    (PyDict.upsert (fun l => (l ++ [x])%list) [x] k d).
Proof.
  induction 1 as [|[k1 v1] d Hv Hd IH]; simpl; [by repeat constructor|].
  destruct (String.eqb k1 k); constructor; try done.
  simpl. intros [? _]%app_eq_nil. done.
Qed.

Lemma normalize_rows_app (rows rows' : list CharityRow.t) :
  normalize_rows (rows ++ rows') = (normalize_rows rows ++ normalize_rows rows')%list.
Proof. unfold normalize_rows. apply flat_map_app. Qed.

Lemma of_category_app (code : string) (l l' : list Charity.t) :
  of_category code (l ++ l') = (of_category code l ++ of_category code l')%list.
Proof. unfold of_category. apply List.filter_app. Qed.

(** The grouping loop, from any dict [acc] that files the rows [done]. *)
Lemma group_fold_spec (rows' : list CharityRow.t)
    (acc : PyDict.dict (list Charity.t)) (done : list CharityRow.t) :
  (NoDup (PyDict.keys acc)
   /\ Forall (fun p => p.2 ≠ []) acc
   /\ forall code, default [] (PyDict.get acc code)
                   = of_category code (normalize_rows done)) ->
  NoDup (PyDict.keys (fold_left group_step rows' acc))
  /\ Forall (fun p => p.2 ≠ []) (fold_left group_step rows' acc)
  /\ forall code, default [] (PyDict.get (fold_left group_step rows' acc) code)
                  = of_category code (normalize_rows (done ++ rows')).
Proof.
  revert acc done.
  induction rows' as [|row rows' IH]; intros acc done (Hnd & Hne & Hget).
  { simpl. by rewrite app_nil_r. }
  simpl. replace (done ++ row :: rows')%list with ((done ++ [row]) ++ rows')%list
    by by rewrite <- app_assoc.
  apply IH. unfold group_step. rewrite normalize_rows_app.
  unfold normalize_rows at 2. simpl.
  destruct (row_decile row) as [decile|];
    [|by rewrite !app_nil_r].
  destruct (String.eqb decile ""); [by rewrite !app_nil_r|].
  rewrite app_nil_r. split_and!.
  - rewrite upsert_keys. case_bool_decide as Hin; [done|].
    apply NoDup_app. split_and!; [done| |apply NoDup_singleton].
    by intros x Hx ->%list_elem_of_singleton.
  - by apply upsert_nonempty.
  - intros code. rewrite upsert_get, of_category_app. rewrite <- Hget.
    unfold of_category. simpl.
    destruct (String.eqb_spec decile code) as [<-|Hneq].
    + rewrite bool_decide_eq_true_2 by done. simpl.
      by destruct (PyDict.get acc decile).
    + rewrite bool_decide_eq_false_2 by congruence. by rewrite app_nil_r.
Qed.

(** X10. [group_charities_by_decile] files every row that has a category
    code, in normalized form, under that code and nowhere else: the keys
    are distinct, no key has an empty list, and the list under a code is
    exactly the normalized rows carrying that code, in retrieval order
    (a code without rows is not a key). *)
Theorem group_charities_by_decile_spec (rows : list CharityRow.t) :
  NoDup (PyDict.keys (group_charities_by_decile rows))
  /\ Forall (fun p => p.2 ≠ []) (group_charities_by_decile rows)
  /\ forall code,
       default [] (PyDict.get (group_charities_by_decile rows) code)
       = of_category code (normalize_rows rows).
Proof.
  unfold group_charities_by_decile.
  apply (group_fold_spec rows [] []).
  split_and!; [constructor|constructor|].
  intros code. unfold normalize_rows, of_category. done.
Qed.

Lemma fromkeys_ext (xs seen seen' : list string) :
  (forall x, x ∈ seen <-> x ∈ seen') -> fromkeys xs seen = fromkeys xs seen'.
Proof.
  revert seen seen'. induction xs as [|x xs IH]; intros seen seen' H; simpl;
    [done|].
  rewrite (bool_decide_ext (x ∈ seen) (x ∈ seen')) by apply H.
  case_bool_decide; [by apply IH|]. f_equal. apply IH.
  intros y. rewrite !elem_of_cons. by rewrite H.
Qed.

(** X11. The keys of the grouped pools are the category codes of the rows in
    order of first appearance: the categories take their round-robin turns
    in the order in which the pool first shows them. *)
Theorem group_charities_by_decile_key_order (rows : list CharityRow.t) :
  PyDict.keys (group_charities_by_decile rows)
  = fromkeys
      (map (fun c => default "" (Charity.nteeCode c)) (normalize_rows rows)) [].
Proof.
  unfold group_charities_by_decile.
  assert (Hfold : forall rows' acc,
    PyDict.keys (fold_left group_step rows' acc)
    = (PyDict.keys acc
       ++ fromkeys
            (map (fun c => default "" (Charity.nteeCode c)) (normalize_rows rows'))
            (PyDict.keys acc))%list).
  { induction rows' as [|row rows' IH]; intros acc; simpl.
    { by rewrite app_nil_r. }
    rewrite IH. unfold group_step. unfold normalize_rows. simpl.
    fold (normalize_rows rows').
    destruct (row_decile row) as [decile|]; [|done].
    destruct (String.eqb decile ""); [done|]. simpl.
    rewrite upsert_keys. case_bool_decide as Hin; [done|].
    rewrite <- app_assoc. simpl. do 2 f_equal. apply fromkeys_ext.
    intros x. rewrite elem_of_app, elem_of_cons, elem_of_cons.
    pose proof (elem_of_nil x). tauto. }
  apply (Hfold rows []).
Qed.

(** ** [round_robin_select], beyond its length *)

(** X12. Whatever the pools and the limit, [round_robin_select] returns at
    most [limit] entries, none at all for a limit of zero or less, and every
    entry it returns is a candidate of one of the pools. *)
Theorem round_robin_select_bounded
    (pools : PyDict.dict (list Charity.t)) (limit : Z) :
  (limit <= 0 -> round_robin_select pools limit = [])
  /\ Z.of_nat (List.length (round_robin_select pools limit)) <= Z.max limit 0
  /\ Forall (fun c => exists code l, (code, l) ∈ pools /\ c ∈ l)
       (round_robin_select pools limit).
Proof.
  destruct (Z.le_gt_cases limit 0) as [Hle|Hgt].
  - assert (H : round_robin_select pools limit = []).
    { unfold round_robin_select, round_robin_run.
      replace (Z.to_nat limit) with 0%nat by lia.
      destruct (working_codes pools) as [|code codes]; [done|].
      by rewrite rounds_stop by (simpl; lia). }
    rewrite H. split_and!; [done|simpl; lia|constructor].
  - split; [lia|].
    destruct (round_robin_run_enough pools limit ltac:(lia))
      as (ids & st & _ & Heq & Hinv & Hout).
    split; [rewrite Heq; lia|].
    apply Forall_forall. intros c Hc.
    by apply (round_robin_select_candidates pools limit c ltac:(lia)).
Qed.

(** A turn only adds to [seen_ids], adds at most one entry, and leaves the
    first candidate of its category seen. *)
Lemma take_turn_step (pools : PyDict.dict (list Charity.t)) (code : string)
    (st : Selection) (progressed : bool) (ids : list string) :
  selection_inv pools ids st ->
  exists ids' st' progressed',
    take_turn pools code st progressed = (st', progressed')
    /\ selection_inv pools ids' st'
    /\ seen_ids st ⊆ seen_ids st'
    /\ head_seen pools code st'
    /\ (List.length (selected st') <= S (List.length (selected st)))%nat.
Proof.
  intros Hinv.
  destruct (take_turn_inv pools code st progressed ids Hinv)
    as (ids1 & st1 & p1 & Heq & Hinv1 & Hcase).
  exists ids1, st1, p1. split; [done|]. split; [done|].
  destruct Hcase as [(-> & -> & Hex)|(-> & Hlen)].
  - split_and!; [done| |lia].
    intros c rest Hg. apply (Hex code (c :: rest));
      [apply list_elem_of_here|done|apply list_elem_of_here].
  - destruct (take_turn_cases pools code st progressed)
      as [[Heq' _]|(l & pre & charity & post & Hg & Hd & Hpre & Hnew & Heq')];
      rewrite Heq' in Heq.
    { injection Heq as <- _. lia. }
    injection Heq as <-. split_and!; [simpl; set_solver| |lia].
    intros c rest Hg'.
    apply (inv_cursor _ _ _ Hinv1 code (c :: rest) Hg').
    rewrite cursor_insert. destruct (decide (code = code)); [|done].
    replace (cursor st code + List.length pre + 1)%nat
      with (S (cursor st code + List.length pre)) by lia.
    apply list_elem_of_here.
Qed.

Lemma for_codes_seen (pools : PyDict.dict (list Charity.t)) (limit : Z)
    (codes : list string) (st : Selection) (progressed : bool)
    (ids : list string) :
  selection_inv pools ids st ->
  exists ids' st' progressed',
    for_codes pools limit codes st progressed = (st', progressed')
    /\ selection_inv pools ids' st'
    /\ seen_ids st ⊆ seen_ids st'.
Proof.
  revert st progressed ids.
  induction codes as [|code codes IH]; intros st progressed ids Hinv; simpl.
  { by exists ids, st, progressed. }
  destruct (take_turn_step pools code st progressed ids Hinv)
    as (ids1 & st1 & p1 & -> & Hinv1 & Hsub & _).
  destruct (Z.of_nat (List.length (selected st1)) >=? limit).
  - by exists ids1, st1, p1.
  - destruct (IH st1 p1 ids1 Hinv1) as (ids' & st' & p' & -> & Hinv' & Hsub').
    exists ids', st', p'. split_and!; [done|done|set_solver].
Qed.

Lemma rounds_seen (pools : PyDict.dict (list Charity.t)) (limit : Z)
    (codes : list string) (fuel : nat) (st st' : Selection)
    (ids : list string) :
  selection_inv pools ids st ->
  rounds pools limit codes fuel st = Some st' ->
  seen_ids st ⊆ seen_ids st'.
Proof.
  revert st ids. induction fuel as [|fuel IH]; intros st ids Hinv; simpl.
  - destruct (Z.of_nat (List.length (selected st)) <? limit); [done|].
    by intros [= <-].
  - destruct (Z.of_nat (List.length (selected st)) <? limit);
      [|by intros [= <-]].
    destruct (for_codes_seen pools limit codes st false ids Hinv)
      as (ids1 & st1 & p1 & -> & Hinv1 & Hsub).
    destruct p1.
    + intros H. apply (IH _ _ Hinv1) in H. set_solver.
    + by intros [= <-].
Qed.

(** While the limit leaves room for one entry per category, the round
    visits every category. *)
Lemma for_codes_first_round (pools : PyDict.dict (list Charity.t)) (limit : Z)
    (codes : list string) (st : Selection) (progressed : bool)
    (ids : list string) :
  selection_inv pools ids st ->
  Z.of_nat (List.length (selected st)) + Z.of_nat (List.length codes) <= limit ->
  exists ids' st' progressed',
    for_codes pools limit codes st progressed = (st', progressed')
    /\ selection_inv pools ids' st'
    /\ forall code, code ∈ codes -> head_seen pools code st'.
Proof.
  revert st progressed ids.
  induction codes as [|code codes IH]; intros st progressed ids Hinv Hroom;
    simpl.
  { exists ids, st, progressed. split_and!; [done|done|].
    by intros code ?%elem_of_nil. }
  destruct (take_turn_step pools code st progressed ids Hinv)
    as (ids1 & st1 & p1 & -> & Hinv1 & Hsub & Hhead & Hlen).
  simpl in Hroom.
  destruct (Z.geb_spec (Z.of_nat (List.length (selected st1))) limit).
  - exists ids1, st1, p1. split_and!; [done|done|].
    intros code' [->|Hin]%elem_of_cons; [done|].
    destruct codes; [by apply elem_of_nil in Hin|simpl in Hroom; lia].
  - destruct (IH st1 p1 ids1 Hinv1 ltac:(lia))
      as (ids' & st' & p' & Heq & Hinv' & Hheads).
    exists ids', st', p'. split_and!; [done|done|].
    intros code' [->|Hin]%elem_of_cons; [|by apply Hheads].
    destruct (for_codes_seen pools limit codes st1 p1 ids1 Hinv1)
      as (? & ? & ? & Heq' & _ & Hsub').
    rewrite Heq in Heq'. injection Heq' as <- <-.
    intros c rest Hg. apply Hsub'. by eapply Hhead.
Qed.

Lemma rounds_unfold (pools : PyDict.dict (list Charity.t)) (limit : Z)
    (codes : list string) (fuel : nat) (st : Selection) :
  rounds pools limit codes (S fuel) st
  = if Z.of_nat (List.length (selected st)) <? limit
    then
      let '(st', progressed) := for_codes pools limit codes st false in
      if progressed then rounds pools limit codes fuel st' else Some st'
    else Some st.
Proof. reflexivity. Qed.

(** X13. When the limit leaves room for one entry per non-empty category,
    every such category gets its turn: the identity of its first candidate
    is among the (pairwise distinct) identities of the selected entries. *)
Theorem round_robin_select_serves_every_category
    (pools : PyDict.dict (list Charity.t)) (limit : Z)
    (code : string) (c : Charity.t) (rest : list Charity.t) :
  Z.of_nat (List.length (working_codes pools)) <= limit ->
  PyDict.get pools code = Some (c :: rest) ->
  exists ids,
    Forall2 (candidate_identity pools) ids (round_robin_select pools limit)
    /\ NoDup ids
    /\ unique_id code c ∈ ids.
Proof.
  intros Hroom Hg.
  assert (Hcode : code ∈ working_codes pools).
  { apply (working_codes_elem_of pools code (c :: rest));
      [by apply dict_get_elem_of|done]. }
  unfold round_robin_select, round_robin_run.
  destruct (working_codes pools) as [|code0 codes] eqn:Hcodes;
    [by apply elem_of_nil in Hcode|].
  set (st0 := initial_selection (code0 :: codes)).
  destruct (rounds_inv pools limit (code0 :: codes) (Z.to_nat limit) st0 []
              (initial_selection_inv _ _) ltac:(simpl; lia) ltac:(simpl; lia))
    as (ids & st & Hrun & Hinv & _).
  rewrite Hrun. simpl. exists ids.
  split; [apply Hinv|]. split; [apply Hinv|].
  assert (Hseen : unique_id code c ∈ seen_ids st).
  { destruct (Z.to_nat limit) as [|fuel] eqn:Hfuel; [simpl in Hroom; lia|].
    rewrite rounds_unfold in Hrun.
    destruct (Z.ltb_spec (Z.of_nat (List.length (selected st0))) limit);
      [|simpl in *; lia].
    destruct (for_codes_first_round pools limit (code0 :: codes) st0 false []
                (initial_selection_inv _ _) ltac:(simpl in *; lia))
      as (ids1 & st1 & p1 & Heq & Hinv1 & Hheads).
    rewrite Heq in Hrun. specialize (Hheads code Hcode c rest Hg).
    destruct p1.
    - by apply (rounds_seen _ _ _ _ _ _ _ Hinv1 Hrun).
    - by injection Hrun as <-. }
  rewrite (inv_seen _ _ _ Hinv) in Hseen. by apply elem_of_list_to_set in Hseen.
Qed.

Lemma round_robin_select_serves_every_category_witness :
  exists ids,
    Forall2
      (candidate_identity
         [("A", [charity_of "a1" "1"; charity_of "a2" "2"]);
          ("B", [charity_of "b1" "3"])])
      ids
      (round_robin_select
         [("A", [charity_of "a1" "1"; charity_of "a2" "2"]);
          ("B", [charity_of "b1" "3"])] 2)
    /\ NoDup ids
    /\ unique_id "B" (charity_of "b1" "3") ∈ ids.
Proof.
  apply (round_robin_select_serves_every_category
           [("A", [charity_of "a1" "1"; charity_of "a2" "2"]);
            ("B", [charity_of "b1" "3"])] 2 "B" (charity_of "b1" "3") []).
  - vm_compute. discriminate.
  - reflexivity.
Defined.

(** ** Enrichment, beyond the merge *)

Lemma resolved_negative (o : HttpOutcome) :
  negative_outcome o = true -> resolved_detail o = None.
Proof.
  intros H. unfold resolved_detail.
  destruct o as [|s [|[d|]]]; try done. by rewrite H.
Qed.

Lemma merge_detail_frame (d : Detail) (c : Charity.t) :
  Charity.name (merge_detail d c) = Charity.name c
  /\ Charity.ein (merge_detail d c) = Charity.ein c.
Proof. done. Qed.

Section EnrichmentFacts.
Variable http_get : nat -> string -> HttpOutcome.
Variable EVERY_API_KEY : option string.

Local Abbreviation fetch := (fetch_every_nonprofit_detail http_get EVERY_API_KEY).
Local Abbreviation enrich := (enrich_charities_with_every http_get EVERY_API_KEY).

(** X14. A lookup that returned a detail is repeatable for free: the next
    lookup of the same identifier returns the same detail and leaves the
    world as it is, without any request. *)
Theorem positive_result_is_served_from_cache
    (ein : string) (d : Detail) (w w1 : World) :
  fetch ein w = (Ok (Some d), w1) ->
  fetch ein w1 = (Ok (Some d), w1).
Proof.
  intros H. assert (Hne : ein ≠ "").
  { intros ->. by unfold fetch_every_nonprofit_detail, ret in H. }
  apply fetch_every_nonprofit_detail_cache in H as [_ H].
  apply fetch_hit; [done|]. by apply H.
Qed.

(** What a lookup can do to the world and how it can end: at most one
    request, no statement; it raises only the configuration error, and only
    without the key. *)
Lemma fetch_effects (ein : string) (w : World) :
  sql_log (fetch ein w).2 = sql_log w
  /\ (List.length (http_log (fetch ein w).2) <= S (List.length (http_log w)))%nat
  /\ (forall e, (fetch ein w).1 = Raise e ->
        e = HTTPException 500 "EVERY_API_KEY is not configured."
        /\ PyStr.truthy EVERY_API_KEY = false).
Proof.
  destruct (decide (ein = "")) as [->|Hne].
  { split_and!; [done|simpl; lia|done]. }
  destruct (mjoin (every_cache w !! ein)) as [d|] eqn:Hc.
  { assert (Hhit : every_cache w !! ein = Some (Some d)).
    { by destruct (every_cache w !! ein) as [[?|]|]; simplify_eq/=. }
    rewrite (fetch_hit _ _ _ _ _ Hne Hhit). split_and!; [done|simpl; lia|done]. }
  destruct (PyStr.truthy EVERY_API_KEY) eqn:Hk.
  - rewrite (fetch_miss _ _ _ _ Hne Hk Hc). simpl.
    split_and!; [done|rewrite length_app; simpl; lia|done].
  - unfold fetch_every_nonprofit_detail.
    rewrite (eqb_empty_false _ Hne). unfold bind, cache_get, get_api_key.
    rewrite Hc, Hk. unfold raise. simpl.
    split_and!; [done|lia|]. by intros e [= <-].
Qed.

Lemma enrich_charity_effects (c : Charity.t) (w : World) :
  sql_log (enrich_charity http_get EVERY_API_KEY c w).2 = sql_log w
  /\ (List.length (http_log (enrich_charity http_get EVERY_API_KEY c w).2)
      <= List.length (http_log w)
         + (if PyStr.truthy (Charity.ein c) then 1 else 0))%nat
  /\ (forall e, (enrich_charity http_get EVERY_API_KEY c w).1 = Raise e ->
        e = HTTPException 500 "EVERY_API_KEY is not configured."
        /\ PyStr.truthy EVERY_API_KEY = false).
Proof.
  unfold enrich_charity.
  destruct (PyStr.truthy (Charity.ein c)) eqn:He; simpl.
  2:{ split_and!; [done|lia|done]. }
  destruct (fetch_effects (default "" (Charity.ein c)) w) as (Hs & Hh & Hr).
  unfold bind.
  destruct (fetch (default "" (Charity.ein c)) w) as [[[d|]|e] w1];
    simpl in *; [destruct (decide (d = ∅))| |]; unfold ret; simpl;
    (split_and!; [done|lia|]); try done.
  intros e' [= <-]. by apply Hr.
Qed.

(** The effects of the whole loop, however it ends. *)
Lemma enrich_effects (charities : list Charity.t) (w : World) :
  sql_log (enrich charities w).2 = sql_log w
  /\ (List.length (http_log (enrich charities w).2)
      <= List.length (http_log w)
         + List.length (List.filter (fun c => PyStr.truthy (Charity.ein c))
                          charities))%nat
  /\ (forall e, (enrich charities w).1 = Raise e ->
        e = HTTPException 500 "EVERY_API_KEY is not configured."
        /\ PyStr.truthy EVERY_API_KEY = false).
Proof.
  unfold enrich_charities_with_every. revert w.
  induction charities as [|c l IH]; intros w; simpl.
  { split_and!; [done|lia|done]. }
  destruct (enrich_charity_effects c w) as (Hs & Hh & Hr).
  unfold bind at 1 3 5.
  destruct (enrich_charity http_get EVERY_API_KEY c w) as [[c'|e] w1];
    simpl in *.
  2:{ split_and!; [done| |]; [destruct (PyStr.truthy (Charity.ein c)); simpl; lia|].
      intros e' [= <-]. by apply Hr. }
  destruct (IH w1) as (Hs' & Hh' & Hr'). unfold bind.
  destruct (for_each (enrich_charity http_get EVERY_API_KEY) l w1)
    as [[l'|e] w2]; simpl in *.
  - split_and!; [congruence| |done].
    destruct (PyStr.truthy (Charity.ein c)); simpl; lia.
  - split_and!; [congruence| |].
    + destruct (PyStr.truthy (Charity.ein c)); simpl; lia.
    + intros e' [= <-]. by apply Hr'.
Qed.




(** X16. Charities without an EIN are none of Every.org's business: a list
    in which no charity has a non-empty [ein] comes back unchanged, with the
    world untouched (no request, no cache entry), key or no key. *)
Theorem enrich_skips_charities_without_ein
    (charities : list Charity.t) (w : World) :
  Forall (fun c => PyStr.truthy (Charity.ein c) = false) charities ->
  enrich charities w = (Ok charities, w).
Proof.
  unfold enrich_charities_with_every.
  induction 1 as [|c l Hc _ IH]; simpl; [done|].
  assert (Hone : enrich_charity http_get EVERY_API_KEY c w = (Ok c, w)).
  { unfold enrich_charity. by rewrite Hc. }
  unfold bind. by rewrite Hone, IH.
Qed.

(** X17. Without the API key nothing leaves the process: whatever the list
    and whatever the outcome (also when it raises), enrichment sends no
    request and changes neither the cache nor the statement log. *)
Theorem enrich_without_key_touches_nothing
    (charities : list Charity.t) (w : World) :
  PyStr.truthy EVERY_API_KEY = false ->
  (enrich charities w).2 = w.
Proof.
  intros Hk. unfold enrich_charities_with_every. revert w.
  assert (Hfetch : forall ein w, (fetch ein w).2 = w).
  { intros ein w. unfold fetch_every_nonprofit_detail.
    destruct (String.eqb ein ""); [done|]. unfold bind, cache_get.
    destruct (mjoin (every_cache w !! ein)); [done|].
    unfold get_api_key. by rewrite Hk. }
  assert (Hone : forall c w, (enrich_charity http_get EVERY_API_KEY c w).2 = w).
  { intros c w. unfold enrich_charity.
    destruct (PyStr.truthy (Charity.ein c)); [|done]. simpl. unfold bind.
    specialize (Hfetch (default "" (Charity.ein c)) w).
    destruct (fetch (default "" (Charity.ein c)) w) as [[[d|]|e] w1];
      simpl in Hfetch; subst w1; [|done|done].
    by destruct (decide (d = ∅)). }
  induction charities as [|c l IH]; intros w; simpl; [done|].
  unfold bind at 1. specialize (Hone c w).
  destruct (enrich_charity http_get EVERY_API_KEY c w) as [[c'|e] w1];
    simpl in Hone; subst w1; [|done].
  unfold bind at 1. specialize (IH w).
  by destruct (for_each (enrich_charity http_get EVERY_API_KEY) l w)
    as [[l'|e] w2].
Qed.

(** A failing service and a cache without details leave a charity alone. *)
Lemma enrich_charity_failing_service (c : Charity.t) (w : World) :
  PyStr.truthy EVERY_API_KEY = true ->
  (forall n ein, negative_outcome (http_get n ein) = true) ->
  (forall ein, mjoin (every_cache w !! ein) = None) ->
  exists w1,
    enrich_charity http_get EVERY_API_KEY c w = (Ok c, w1)
    /\ (forall ein, mjoin (every_cache w1 !! ein) = None)
    /\ http_log w1
       = (http_log w
          ++ if PyStr.truthy (Charity.ein c)
             then [default "" (Charity.ein c)] else [])%list.
Proof.
  intros Hk Hneg Hcache. unfold enrich_charity.
  destruct (PyStr.truthy (Charity.ein c)) eqn:He; simpl.
  2:{ exists w. by rewrite app_nil_r. }
  apply truthy_Some in He as (ein & -> & Hne). simpl. unfold bind.
  rewrite (fetch_miss _ _ _ _ Hne Hk (Hcache ein)).
  rewrite (resolved_negative _ (Hneg _ _)). eexists. split; [done|].
  split; [|done]. intros ein'. simpl. rewrite lookup_insert.
  destruct (decide (ein = ein')); [done|apply Hcache].
Qed.

Lemma enrich_failing_service (charities : list Charity.t) (w : World) :
  PyStr.truthy EVERY_API_KEY = true ->
  (forall n ein, negative_outcome (http_get n ein) = true) ->
  (forall ein, mjoin (every_cache w !! ein) = None) ->
  exists w', enrich charities w = (Ok charities, w').
Proof.
  intros Hk Hneg. unfold enrich_charities_with_every. revert w.
  induction charities as [|c l IH]; intros w Hcache; simpl.
  { by exists w. }
  destruct (enrich_charity_failing_service c w Hk Hneg Hcache)
    as (w1 & Hc & Hcache1 & _).
  destruct (IH w1 Hcache1) as (w' & Hl).
  exists w'. unfold bind. by rewrite Hc, Hl.
Qed.

(** X18. When Every.org only fails (transport failure, status 400 and
    above, unreadable body, no [nonprofit] object) and the cache holds no
    detail, the failures are absorbed: every charity comes back exactly as it
    went in, after one request for each charity that has an EIN (a repeated
    EIN is asked for again), and the cache still holds no detail. *)
Theorem enrich_leaves_charities_when_service_fails
    (charities : list Charity.t) (w : World) :
  PyStr.truthy EVERY_API_KEY = true ->
  (forall n ein, negative_outcome (http_get n ein) = true) ->
  (forall ein, mjoin (every_cache w !! ein) = None) ->
  exists w',
    enrich charities w = (Ok charities, w')
    /\ (forall ein, mjoin (every_cache w' !! ein) = None)
    /\ http_log w'
       = (http_log w
          ++ map (fun c => default "" (Charity.ein c))
               (List.filter (fun c => PyStr.truthy (Charity.ein c)) charities))%list.
Proof.
  intros Hk Hneg. unfold enrich_charities_with_every. revert w.
  induction charities as [|c l IH]; intros w Hcache; simpl.
  { exists w. by rewrite app_nil_r. }
  destruct (enrich_charity_failing_service c w Hk Hneg Hcache)
    as (w1 & Hc & Hcache1 & Hh1).
  destruct (IH w1 Hcache1) as (w' & Hl & Hcache' & Hh').
  exists w'. unfold bind. rewrite Hc, Hl. split; [done|]. split; [done|].
  rewrite Hh', Hh1, <- app_assoc. f_equal.
  by destruct (PyStr.truthy (Charity.ein c)).
Qed.
End EnrichmentFacts.

(** ** The recommend operation, beyond its categories *)

Lemma mapped_deciles_nonempty (code : string) (target : list string) :
  PyDict.get GENERIC_TO_NTEE code = Some target -> target ≠ [].
Proof.
  intros H%dict_get_elem_of.
  assert (Hall : Forall (fun p => p.2 ≠ []) GENERIC_TO_NTEE).
  { apply (bool_decide_unpack _). by vm_compute. }
  rewrite Forall_forall in Hall. apply (Hall _ H).
Qed.

Section OperationFacts.
Variable table : list CharityRow.t.
Variable sql_random : nat -> nat -> Z.
Variable py_random : Z -> nat -> nat -> nat.
Variable http_get : nat -> string -> HttpOutcome.
Variable EVERY_API_KEY : option string.

Local Abbreviation recommend :=
  (recommend_charities table sql_random py_random http_get EVERY_API_KEY).
Local Abbreviation enrich := (enrich_charities_with_every http_get EVERY_API_KEY).
Local Abbreviation pool_of :=
  (fetch_random_pool_for_deciles table sql_random py_random).

Lemma fetch_by_deciles_statements
    (deciles : list string) (state : option string) (limit : Z) (w : World) :
  exists statements,
    sql_log (fetch_by_deciles table sql_random deciles state limit w).2
    = (sql_log w ++ statements)%list
    /\ (List.length statements <= 2)%nat.
Proof.
  unfold fetch_by_deciles.
  destruct (_normalize_deciles deciles) as [|d ds].
  { exists []. split; [by rewrite app_nil_r|simpl; lia]. }
  destruct (_normalize_state state) as [region|];
    unfold bind, _execute_query, ret; simpl.
  - destruct (run_query table sql_random (List.length (sql_log w)) _)
      as [|r rs]; simpl.
    + eexists [_; _]. split; [by rewrite <- app_assoc|simpl; lia].
    + eexists [_]. split; [done|simpl; lia].
  - eexists [_]. split; [done|simpl; lia].
Qed.

(** The pool: never an exception, at most [pool_size] rows of the asked
    categories, at most two statements, nothing else touched. *)
Lemma fetch_random_pool_returns
    (deciles : list string) (state : option string) (pool_size : Z)
    (seed : option Z) (w : World) :
  exists rows w1 statements,
    pool_of deciles state pool_size seed w = (Ok rows, w1)
    /\ Z.of_nat (List.length rows) <= Z.max pool_size 0
    /\ (forall row, row ∈ rows ->
          row ∈ table
          /\ exists c, CharityRow.ntee_code row = Some c
                       /\ c ∈ _normalize_deciles deciles)
    /\ every_cache w1 = every_cache w /\ http_log w1 = http_log w
    /\ sql_log w1 = (sql_log w ++ statements)%list
    /\ (List.length statements <= 2)%nat.
Proof.
  unfold fetch_random_pool_for_deciles.
  destruct (Z.leb_spec pool_size 0) as [Hle|Hgt].
  { exists [], w, []. rewrite app_nil_r.
    split_and!; first [done | simpl; lia | by intros row ?%elem_of_nil]. }
  destruct (fetch_by_deciles_returns table sql_random deciles state
              (Z.max (pool_size * 3) pool_size) w)
    as (fetched & w' & Hf & _ & Hrows & Hc & Hh).
  destruct (fetch_by_deciles_statements deciles state
              (Z.max (pool_size * 3) pool_size) w) as (qs & Hq & Hlen).
  rewrite Hf in Hq. simpl in Hq.
  unfold bind. rewrite Hf. eexists _, w', qs. split; [done|].
  split_and!; try done; [rewrite length_take; lia|].
  intros row (i & Hi & _)%elem_of_take.
  apply list_elem_of_lookup_2 in Hi.
  destruct seed as [s|]; [rewrite shuffle_perm in Hi|]; by apply Hrows.
Qed.

(** How a request can go: the client error before anything is done; or a
    pool is fetched and the request ends with "not found" or goes through
    selection and enrichment. *)
Lemma recommend_cases (payload_generic_code payload_location : string)
    (w : World) :
  ((PyStr.upper (PyStr.strip payload_generic_code) = ""
    \/ PyDict.get GENERIC_TO_NTEE
         (PyStr.upper (PyStr.strip payload_generic_code)) = None)
   /\ exists detail,
        recommend payload_generic_code payload_location w
        = (Raise (HTTPException 400 detail), w))
  \/ exists target pool w1 statements,
       PyDict.get GENERIC_TO_NTEE
         (PyStr.upper (PyStr.strip payload_generic_code)) = Some target
       /\ pool_of target
            (if String.eqb (normalize_state (PyStr.strip payload_location)) "any"
             then None
             else Some (normalize_state (PyStr.strip payload_location)))
            (MAX_CHARITIES * 4) None w = (Ok pool, w1)
       /\ Z.of_nat (List.length pool) <= 60
       /\ (forall row, row ∈ pool ->
             row ∈ table
             /\ exists c, CharityRow.ntee_code row = Some c /\ c ∈ target)
       /\ every_cache w1 = every_cache w /\ http_log w1 = http_log w
       /\ sql_log w1 = (sql_log w ++ statements)%list
       /\ (List.length statements <= 2)%nat
       /\ ((exists detail,
              (pool = []
               \/ round_robin_select (group_charities_by_decile pool)
                    MAX_CHARITIES = [])
              /\ recommend payload_generic_code payload_location w
                 = (Raise (HTTPException 404 detail), w1))
           \/ (round_robin_select (group_charities_by_decile pool)
                 MAX_CHARITIES ≠ []
               /\ recommend payload_generic_code payload_location w
                  = match enrich (round_robin_select
                                    (group_charities_by_decile pool)
                                    MAX_CHARITIES) w1 with
                    | (Ok selected, w2) =>
                        (Ok {| generic_code :=
                                 PyStr.upper (PyStr.strip payload_generic_code);
                               location := PyStr.strip payload_location;
                               ntee_codes := target;
                               charities := selected |}, w2)
                    | (Raise e, w2) => (Raise e, w2)
                    end)).
Proof.
  remember (recommend payload_generic_code payload_location w) as R eqn:HR.
  unfold recommend_charities in HR.
  destruct (String.eqb_spec (PyStr.upper (PyStr.strip payload_generic_code)) "")
    as [He|_]; [left; split; [by left|by eexists]|].
  destruct (PyDict.get GENERIC_TO_NTEE
              (PyStr.upper (PyStr.strip payload_generic_code)))
    as [target|] eqn:Hget; [|left; split; [by right|by eexists]].
  pose proof (mapped_deciles_nonempty _ _ Hget) as Hne.
  destruct target as [|t0 target0] eqn:Ht; [done|].
  rewrite <- Ht in *. right.
  destruct (fetch_random_pool_returns target
              (if String.eqb (normalize_state (PyStr.strip payload_location)) "any"
               then None
               else Some (normalize_state (PyStr.strip payload_location)))
              (MAX_CHARITIES * 4) None w)
    as (pool & w1 & qs & Hpool & Hlen & Hrows & Hc & Hh & Hs & Hq).
  rewrite (mapped_deciles_clean _ _ Hget) in Hrows.
  exists target, pool, w1, qs. unfold bind at 1 in HR. rewrite Hpool in HR.
  split_and!; try done.
  destruct pool as [|row0 pool0] eqn:Hp; [left; eexists; split; [by left|done]|].
  rewrite <- Hp in *.
  destruct (round_robin_select (group_charities_by_decile pool) MAX_CHARITIES)
    as [|s0 sel0] eqn:Hsel; [left; eexists; split; [by right|done]|].
  right. split; [done|]. unfold bind in HR.
  by destruct (enrich (s0 :: sel0) w1) as [[sel'|e] w2].
Qed.

Lemma unique_id_ein (code : string) (c : Charity.t) :
  PyStr.truthy (Charity.ein c) = true ->
  unique_id code c = default "" (Charity.ein c).
Proof. intros H. unfold unique_id. by rewrite H. Qed.

Lemma enriched_in_ein (w0 : World) (c c' : Charity.t) :
  enriched_in w0 c c' -> Charity.ein c' = Charity.ein c.
Proof. by intros [->|(ein & d & _ & _ & ->)]. Qed.

(** X19. A successful response holds between one and fifteen charities and
    echoes the request normalized: the interest code trimmed and in capitals,
    the location trimmed. *)
Theorem recommend_response_shape
    (payload_generic_code payload_location : string) (w w' : World)
    (resp : CharityResponse) :
  recommend payload_generic_code payload_location w = (Ok resp, w') ->
  (1 <= List.length (charities resp) <= 15)%nat
  /\ generic_code resp = PyStr.upper (PyStr.strip payload_generic_code)
  /\ location resp = PyStr.strip payload_location.
Proof.
  intros H.
  destruct (recommend_cases payload_generic_code payload_location w)
    as [[_ [detail Hr]]
       |(target & pool & w1 & qs & Hget & _ & _ & _ & _ & _ & _ & _
         & [(detail & _ & Hr)|[Hsel Hr]])];
    rewrite Hr in H; try done.
  destruct (enrich _ w1) as [[sel'|e] w2] eqn:He; [|done].
  injection H as <- <-. simpl. split; [|done].
  apply enrich_charities_enriched in He as [_ He].
  rewrite <- (Forall2_length _ _ _ He).
  destruct (round_robin_run_enough (group_charities_by_decile pool)
              MAX_CHARITIES ltac:(done)) as (ids & st & _ & Heq & _ & Hout).
  rewrite Heq in *. unfold MAX_CHARITIES in Hout.
  destruct (selected st); [done|simpl in *; lia].
Qed.

(** X20. A response never lists the same EIN twice: two entries at
    different positions that both carry a non-empty [ein] carry different
    ones. *)
Theorem recommend_never_repeats_an_ein
    (payload_generic_code payload_location : string) (w w' : World)
    (resp : CharityResponse) (i j : nat) (ci cj : Charity.t) :
  recommend payload_generic_code payload_location w = (Ok resp, w') ->
  charities resp !! i = Some ci -> charities resp !! j = Some cj ->
  PyStr.truthy (Charity.ein ci) = true ->
  Charity.ein ci = Charity.ein cj ->
  i = j.
Proof.
  intros H Hi Hj Ht Heq.
  destruct (recommend_cases payload_generic_code payload_location w)
    as [[_ [detail Hr]]
       |(target & pool & w1 & qs & Hget & _ & _ & _ & _ & _ & _ & _
         & [(detail & _ & Hr)|[Hsel Hr]])];
    rewrite Hr in H; try done.
  destruct (enrich _ w1) as [[sel'|e] w2] eqn:He; [|done].
  injection H as <- <-. simpl in Hi, Hj.
  apply enrich_charities_enriched in He as [_ He].
  destruct (round_robin_run_enough (group_charities_by_decile pool)
              MAX_CHARITIES ltac:(done))
    as (ids & st & _ & Hst & [Hnd Hcand _ _] & _).
  rewrite Hst in He.
  destruct (Forall2_lookup_r _ _ _ _ _ He Hi) as (bi & Hbi & Hei%enriched_in_ein).
  destruct (Forall2_lookup_r _ _ _ _ _ He Hj) as (bj & Hbj & Hej%enriched_in_ein).
  destruct (Forall2_lookup_r _ _ _ _ _ Hcand Hbi)
    as (idi & Hidi & codei & li & _ & _ & ->).
  destruct (Forall2_lookup_r _ _ _ _ _ Hcand Hbj)
    as (idj & Hidj & codej & lj & _ & _ & ->).
  rewrite unique_id_ein in Hidi by congruence.
  rewrite unique_id_ein in Hidj by congruence.
  apply (NoDup_lookup _ _ _ _ Hnd Hidi). rewrite Hidj. do 2 f_equal. congruence.
Qed.

(** X21. When the interest code is mapped but the table holds no row in
    any of its categories, the request ends with "not found" (status 404),
    without any request to Every.org and with the cache as it was. *)
Theorem recommend_not_found_without_rows
    (payload_generic_code payload_location : string) (w : World)
    (target : list string) :
  PyDict.get GENERIC_TO_NTEE (PyStr.upper (PyStr.strip payload_generic_code))
  = Some target ->
  (forall row c, row ∈ table -> c ∈ target ->
                 CharityRow.ntee_code row ≠ Some c) ->
  exists detail w',
    recommend payload_generic_code payload_location w
    = (Raise (HTTPException 404 detail), w')
    /\ http_log w' = http_log w /\ every_cache w' = every_cache w.
Proof.
  intros Hget Hnone.
  destruct (recommend_cases payload_generic_code payload_location w)
    as [[[He|He] _]
       |(target' & pool & w1 & qs & Hget' & _ & _ & Hrows & Hc & Hh & Hs & Hq & Hcase)].
  { rewrite He in Hget. by vm_compute in Hget. }
  { congruence. }
  assert (target' = target) as -> by congruence.
  assert (Hpool : pool = []).
  { destruct pool as [|row pool]; [done|].
    destruct (Hrows row (list_elem_of_here _ _)) as (Hin & c & Hc' & Hct).
    by destruct (Hnone row c Hin Hct). }
  destruct Hcase as [(detail & _ & Hr)|[Hsel _]].
  - by exists detail, w1.
  - rewrite Hpool in Hsel. by vm_compute in Hsel.
Qed.

(** X22. Whatever the request and however it ends, the operation runs at
    most two statements on the catalog and sends at most fifteen requests to
    Every.org. *)
Theorem recommend_effects_bounded
    (payload_generic_code payload_location : string) (w : World) :
  exists statements,
    sql_log (recommend payload_generic_code payload_location w).2
    = (sql_log w ++ statements)%list
    /\ (List.length statements <= 2)%nat
    /\ (List.length
          (http_log (recommend payload_generic_code payload_location w).2)
        <= List.length (http_log w) + 15)%nat.
Proof.
  destruct (recommend_cases payload_generic_code payload_location w)
    as [[_ [detail Hr]]
       |(target & pool & w1 & qs & _ & _ & _ & _ & _ & Hh & Hs & Hq
         & [(detail & _ & Hr)|[Hsel Hr]])];
    rewrite Hr.
  - exists []. rewrite app_nil_r. split_and!; [done|simpl; lia|simpl; lia].
  - exists qs. simpl. rewrite Hh. split_and!; [done|done|lia].
  - exists qs.
    destruct (enrich_effects http_get EVERY_API_KEY
                (round_robin_select (group_charities_by_decile pool)
                   MAX_CHARITIES) w1) as (Hs' & Hh' & _).
    destruct (round_robin_run_enough (group_charities_by_decile pool)
                MAX_CHARITIES ltac:(done)) as (ids & st & _ & Heq & _ & Hout).
    pose proof (filter_length_le (fun c => PyStr.truthy (Charity.ein c))
                  (round_robin_select (group_charities_by_decile pool)
                     MAX_CHARITIES)) as Hf.
    rewrite Heq in *. unfold MAX_CHARITIES in Hout. rewrite Hh in Hh'.
    destruct (enrich (selected st) w1) as [[sel'|e] w2]; simpl in *;
      (split_and!; [congruence|done|lia]).
Qed.


(** ** The featured operation *)

Lemma normalize_rows_elem_of (rows : list CharityRow.t) (c : Charity.t) :
  c ∈ normalize_rows rows ->
  exists row d,
    row ∈ rows /\ CharityRow.ntee_code row = Some d /\ d ≠ ""
    /\ c = normalized row d.
Proof.
  unfold normalize_rows.
  intros (row & Hrow%list_elem_of_In & Hc)%list_elem_of_In%in_flat_map.
  unfold row_decile, PyStr.por in Hc.
  destruct (PyStr.truthy (CharityRow.ntee_code row)) eqn:E; [|done].
  apply truthy_Some in E as (d & Hd & Hne). rewrite Hd in Hc.
  rewrite (eqb_empty_false _ Hne) in Hc. simpl in Hc.
  destruct Hc as [<-|Hc]; [|done]. by exists row, d.
Qed.


(** The featured pool is the normalized form of a pool of rows. *)
Lemma get_daily_featured_pool_returns (pool_size : Z) (w : World) :
  exists rows w1,
    get_daily_featured_pool table sql_random py_random pool_size w
    = (Ok (normalize_rows rows), w1)
    /\ Z.of_nat (List.length rows) <= Z.max pool_size 0
    /\ (forall row, row ∈ rows ->
          row ∈ table
          /\ exists c, CharityRow.ntee_code row = Some c /\ c ∈ featured_deciles)
    /\ every_cache w1 = every_cache w /\ http_log w1 = http_log w.
Proof.
  unfold get_daily_featured_pool. fold featured_deciles.
  assert (Hclean : _normalize_deciles featured_deciles = featured_deciles)
    by by vm_compute.
  destruct featured_deciles as [|d0 ds] eqn:Hd; [by vm_compute in Hd|].
  rewrite <- Hd in *.
  destruct (fetch_random_pool_returns featured_deciles None pool_size None w)
    as (rows & w1 & qs & Hpool & Hlen & Hrows & Hc & Hh & _).
  rewrite Hclean in Hrows. unfold bind. rewrite Hpool.
  by exists rows, w1.
Qed.


(** X25. Whenever the featured operation answers, it echoes the date, its
    [count] is the length of the list, the list holds at most six charities,
    and every one of them has a non-empty website. *)
Theorem featured_response_shape (today : Date) (w w' : World) (f : Featured) :
  get_featured_charities table sql_random py_random http_get EVERY_API_KEY
    today w = (Ok f, w') ->
  date f = today
  /\ count f = Z.of_nat (List.length (featured_charities f))
  /\ 0 <= count f <= 6
  /\ Forall (fun c => PyStr.truthy (Charity.websiteUrl c) = true)
       (featured_charities f).
Proof.
  unfold get_featured_charities, bind.
  destruct (get_daily_featured_pool table sql_random py_random 200 w)
    as [[pool|e] w1]; [|done].
  destruct pool as [|c0 pool0].
  { intros [= <- <-]. split_and!; simpl; first [done | lia | constructor]. }
  destruct (enrich (c0 :: pool0) w1) as [[pool'|e] w2]; [|done].
  intros [= <- <-]. simpl.
  split_and!; try done; try (rewrite length_take; lia).
  apply Forall_forall. intros c (i & Hi & _)%elem_of_take.
  apply list_elem_of_lookup_2 in Hi. rewrite shuffle_perm in Hi.
  by apply list_elem_of_In, filter_In in Hi as [_ Hi].
Qed.


(** X27. When Every.org only fails and the cache holds no detail, the
    featured list is empty: the catalog knows no website, so nothing
    qualifies. *)
Theorem featured_is_empty_when_service_fails (today : Date) (w : World) :
  PyStr.truthy EVERY_API_KEY = true ->
  (forall n ein, negative_outcome (http_get n ein) = true) ->
  (forall ein, mjoin (every_cache w !! ein) = None) ->
  exists w',
    get_featured_charities table sql_random py_random http_get EVERY_API_KEY
      today w
    = (Ok {| date := today; count := 0; featured_charities := [] |}, w').
Proof.
  intros Hk Hneg Hcache. unfold get_featured_charities, bind.
  destruct (get_daily_featured_pool_returns 200 w)
    as (rows & w1 & -> & _ & _ & Hc & _).
  assert (Hweb : List.filter
                   (fun c => PyStr.truthy (Charity.websiteUrl c))
                   (normalize_rows rows) = []).
  { assert (H : Forall (fun c => Charity.websiteUrl c = None)
                  (normalize_rows rows)).
    { apply Forall_forall.
      by intros c (row & d & _ & _ & _ & ->)%normalize_rows_elem_of. }
    induction H as [|c l Hc' _ IH]; [done|]. simpl. by rewrite Hc'. }
  destruct (normalize_rows rows) as [|c0 pool0] eqn:Hp; [by eexists|].
  destruct (enrich_failing_service http_get EVERY_API_KEY (c0 :: pool0) w1 Hk Hneg)
    as (w2 & ->); [intros ein; by rewrite Hc|].
  exists w2. by rewrite Hweb.
Qed.
End OperationFacts.

(** ** The further properties at work *)

Lemma positive_result_is_served_from_cache_witness :
  exists d w1,
    fetch_every_nonprofit_detail website_service (Some "key") "1" initial_world
    = (Ok (Some d), w1)
    /\ fetch_every_nonprofit_detail website_service (Some "key") "1" w1
       = (Ok (Some d), w1).
Proof.
  eexists _, _. split; [vm_compute; reflexivity|].
  apply (positive_result_is_served_from_cache website_service (Some "key")
           "1" _ initial_world).
  vm_compute. reflexivity.
Defined.


Lemma enrich_skips_charities_without_ein_witness :
  enrich_charities_with_every website_service (Some "key")
    [Charity.Build (Some "Alpha") None None None (Some "D20") None None;
     Charity.Build (Some "Beta") (Some "") None None (Some "D20") None None]
    initial_world
  = (Ok [Charity.Build (Some "Alpha") None None None (Some "D20") None None;
         Charity.Build (Some "Beta") (Some "") None None (Some "D20") None None],
     initial_world).
Proof.
  apply (enrich_skips_charities_without_ein website_service (Some "key")).
  repeat constructor.
Defined.

Lemma enrich_without_key_touches_nothing_witness :
  (enrich_charities_with_every website_service None
     [charity_of "Alpha" "1"; charity_of "Beta" "2"] initial_world).2
  = initial_world.
Proof.
  apply (enrich_without_key_touches_nothing website_service None
           [charity_of "Alpha" "1"; charity_of "Beta" "2"] initial_world).
  reflexivity.
Defined.

Lemma enrich_leaves_charities_when_service_fails_witness :
  exists w',
    enrich_charities_with_every failing_service (Some "key")
      [charity_of "Alpha" "1"; charity_of "Beta" "1"] initial_world
    = (Ok [charity_of "Alpha" "1"; charity_of "Beta" "1"], w')
    /\ (forall ein, mjoin (every_cache w' !! ein) = None)
    /\ http_log w' = ["1"; "1"].
Proof.
  apply (enrich_leaves_charities_when_service_fails failing_service
           (Some "key") [charity_of "Alpha" "1"; charity_of "Beta" "1"]
           initial_world).
  - reflexivity.
  - intros n ein. reflexivity.
  - intros ein. simpl. by rewrite lookup_empty.
Defined.

Lemma recommend_response_shape_witness :
  exists resp w',
    recommend_charities two_row_table flipping_random (fun _ _ _ => O)
      website_service (Some "key") " d0 " " ca " initial_world = (Ok resp, w')
    /\ (1 <= List.length (charities resp) <= 15)%nat
    /\ generic_code resp = "D0"
    /\ location resp = "ca".
Proof.
  eexists _, _. split; [vm_compute; reflexivity|].
  eapply (recommend_response_shape two_row_table flipping_random
           (fun _ _ _ => O) website_service (Some "key") " d0 " " ca "
           initial_world).
  vm_compute. reflexivity.
Defined.

Lemma recommend_never_repeats_an_ein_witness :
  exists resp w' c,
    recommend_charities two_row_table flipping_random (fun _ _ _ => O)
      website_service (Some "key") "D0" "any" initial_world = (Ok resp, w')
    /\ charities resp !! 1%nat = Some c
    /\ 1%nat = 1%nat.
Proof.
  eexists _, _, _. split; [vm_compute; reflexivity|]. split; [reflexivity|].
  eapply (recommend_never_repeats_an_ein two_row_table flipping_random
            (fun _ _ _ => O) website_service (Some "key") "D0" "any"
            initial_world).
  - vm_compute. reflexivity.
  - reflexivity.
  - reflexivity.
  - reflexivity.
  - reflexivity.
Defined.

Lemma recommend_not_found_without_rows_witness :
  exists detail w',
    recommend_charities [] flipping_random (fun _ _ _ => O) website_service
      (Some "key") "D0" "CA" initial_world
    = (Raise (HTTPException 404 detail), w')
    /\ http_log w' = [] /\ every_cache w' = ∅.
Proof.
  apply (recommend_not_found_without_rows [] flipping_random (fun _ _ _ => O)
           website_service (Some "key") "D0" "CA" initial_world
           ["D20"; "D40"; "D60"; "D61"]).
  - reflexivity.
  - intros row c Hrow. by apply elem_of_nil in Hrow.
Defined.


Lemma featured_response_shape_witness :
  exists f w',
    get_featured_charities two_row_table flipping_random (fun _ _ _ => O)
      website_service (Some "key") {| year := 2024; month := 1; day := 1 |}
      initial_world = (Ok f, w')
    /\ date f = {| year := 2024; month := 1; day := 1 |}
    /\ count f = Z.of_nat (List.length (featured_charities f))
    /\ 0 <= count f <= 6
    /\ Forall (fun c => PyStr.truthy (Charity.websiteUrl c) = true)
         (featured_charities f).
Proof.
  eexists _, _. split; [vm_compute; reflexivity|].
  eapply (featured_response_shape two_row_table flipping_random
           (fun _ _ _ => O) website_service (Some "key")
           {| year := 2024; month := 1; day := 1 |} initial_world).
  vm_compute. reflexivity.
Defined.


Lemma featured_is_empty_when_service_fails_witness :
  exists w',
    get_featured_charities two_row_table flipping_random (fun _ _ _ => O)
      failing_service (Some "key") {| year := 2024; month := 1; day := 1 |}
      initial_world
    = (Ok {| date := {| year := 2024; month := 1; day := 1 |};
             count := 0; featured_charities := [] |}, w').
Proof.
  apply (featured_is_empty_when_service_fails two_row_table flipping_random
           (fun _ _ _ => O) failing_service (Some "key")
           {| year := 2024; month := 1; day := 1 |} initial_world).
  - reflexivity.
  - intros n ein. reflexivity.
  - intros ein. simpl. by rewrite lookup_empty.
Defined.

(** ** Grouping and selection composed *)

Lemma selection_length (pools : PyDict.dict (list Charity.t)) (limit : Z) :
  NoDup (PyDict.keys pools) -> 0 < limit ->
  Z.of_nat (List.length (round_robin_select pools limit))
  = Z.min limit (Z.of_nat (size (dedup_identities pools))).
Proof.
  intros Hkeys Hlimit.
  destruct (round_robin_run_enough pools limit ltac:(lia))
    as (ids & st & _ & -> & [Hnd Hsel Hseen Hcur] & Hout).
  assert (Hlen : List.length (selected st) = size (seen_ids st)).
  { rewrite Hseen, size_list_to_set by done. symmetry. by eapply Forall2_length. }
  assert (Hsub : seen_ids st ⊆ dedup_identities pools).
  { intros id. rewrite Hseen. intros Hid%elem_of_list_to_set.
    apply list_elem_of_lookup in Hid as [i Hi].
    destruct (Forall2_lookup_l _ _ _ _ _ Hsel Hi) as (c & _ & Hc).
    by eapply candidate_identity_elem_of. }
  destruct Hout as [Hfull|[Hless Hex]].
  - apply subseteq_size in Hsub. lia.
  - assert (seen_ids st = dedup_identities pools) as <-; [|lia].
    apply set_eq. intros id. split; [apply Hsub|]. by apply exhausted_covers.
Qed.

(** The identities of the grouped candidates are the identities read off
    the normalized rows. *)
Lemma grouped_identities (rows : list CharityRow.t) :
  dedup_identities (group_charities_by_decile rows)
  = list_to_set (map entry_identity (normalize_rows rows)).
Proof.
  destruct (group_fold_spec rows [] [])
    as (Hnd & _ & Hget); [by split_and!; [constructor|constructor|]|].
  fold (group_charities_by_decile rows) in Hnd, Hget. simpl in Hget.
  apply set_eq. intros id. unfold dedup_identities.
  rewrite !elem_of_list_to_set. split.
  - intros ([code l] & Hp%list_elem_of_In & Hid)%list_elem_of_In%in_flat_map.
    simpl in Hid. apply in_map_iff in Hid as (c & <- & Hc).
    apply (dict_elem_of_get _ _ _ Hnd) in Hp.
    specialize (Hget code). rewrite Hp in Hget. simpl in Hget. rewrite Hget in Hc.
    apply filter_In in Hc as [Hc Hcode%bool_decide_eq_true].
    apply list_elem_of_In, in_map_iff. exists c. split; [|done].
    unfold entry_identity. by rewrite Hcode.
  - intros (c & <- & Hc)%list_elem_of_In%in_map_iff.
    pose proof Hc as Hc'. apply list_elem_of_In in Hc'.
    apply normalize_rows_elem_of in Hc' as (row & d & _ & _ & _ & Heq).
    assert (Hcode : Charity.nteeCode c = Some d) by by rewrite Heq.
    assert (Hin : In c (of_category d (normalize_rows rows))).
    { apply filter_In. split; [done|]. by apply bool_decide_eq_true. }
    rewrite <- (Hget d) in Hin.
    destruct (PyDict.get (group_charities_by_decile rows) d) as [l|] eqn:Hl;
      [|done].
    apply list_elem_of_In, in_flat_map. exists (d, l). split.
    + by apply list_elem_of_In, dict_get_elem_of.
    + simpl. apply in_map_iff. exists c. split; [|done].
      unfold entry_identity. by rewrite Hcode.
Qed.

Section CompositionFacts.
Variable table : list CharityRow.t.
Variable sql_random : nat -> nat -> Z.
Variable py_random : Z -> nat -> nat -> nat.
Variable http_get : nat -> string -> HttpOutcome.
Variable EVERY_API_KEY : option string.

(** X28. A response is as full as the pool allows: it holds fifteen
    charities, or, when the pool drawn from the catalog has fewer distinct
    dedup identities, exactly one charity per identity of the pool. *)
Theorem recommend_fills_the_response
    (payload_generic_code payload_location : string) (w w' : World)
    (resp : CharityResponse) :
  recommend_charities table sql_random py_random http_get EVERY_API_KEY
    payload_generic_code payload_location w = (Ok resp, w') ->
  exists pool w1,
    fetch_random_pool_for_deciles table sql_random py_random (ntee_codes resp)
      (if String.eqb (normalize_state (PyStr.strip payload_location)) "any"
       then None
       else Some (normalize_state (PyStr.strip payload_location)))
      (MAX_CHARITIES * 4) None w = (Ok pool, w1)
    /\ Z.of_nat (List.length (charities resp))
       = Z.min 15
           (Z.of_nat
              (size (list_to_set (map entry_identity (normalize_rows pool))
                     : gset string))).
Proof.
  intros H.
  destruct (recommend_cases table sql_random py_random http_get EVERY_API_KEY
              payload_generic_code payload_location w)
    as [[_ [detail Hr]]
       |(target & pool & w1 & qs & Hget & Hpool & _ & _ & _ & _ & _ & _
         & [(detail & _ & Hr)|[Hsel Hr]])];
    rewrite Hr in H; try done.
  destruct (enrich_charities_with_every http_get EVERY_API_KEY _ w1)
    as [[sel'|e] w2] eqn:He; [|done].
  injection H as <- <-. simpl. exists pool, w1. split; [done|].
  apply enrich_charities_enriched in He as [_ He].
  rewrite <- (Forall2_length _ _ _ He), <- grouped_identities.
  apply selection_length; [|done].
  by destruct (group_fold_spec pool [] [])
    as (Hnd & _); [split_and!; [constructor|constructor|]|].
Qed.
End CompositionFacts.

Lemma recommend_fills_the_response_witness :
  exists resp w',
    recommend_charities two_row_table flipping_random (fun _ _ _ => O)
      website_service (Some "key") "D0" "CA" initial_world = (Ok resp, w')
    /\ exists pool w1,
         fetch_random_pool_for_deciles two_row_table flipping_random
           (fun _ _ _ => O) (ntee_codes resp) (Some "CA") (MAX_CHARITIES * 4)
           None initial_world = (Ok pool, w1)
         /\ Z.of_nat (List.length (charities resp))
            = Z.min 15
                (Z.of_nat
                   (size (list_to_set
                            (map entry_identity (normalize_rows pool))
                          : gset string))).
Proof.
  eexists _, _. split; [vm_compute; reflexivity|].
  eapply (recommend_fills_the_response two_row_table flipping_random
            (fun _ _ _ => O) website_service (Some "key") "D0" "CA"
            initial_world).
  vm_compute. reflexivity.
Defined.
